(** * Sun2FLOPs web client: run orchestrator, result views and sweep pivot

    A shallow embedding of the web client:

    - [SweepTab] (components/SweepTab.tsx): the [useMemo] block that turns
      the sweep rows into the two heatmap matrices, and the results table;
    - [useSimulation] (hooks/useSimulation.ts): the React hook that owns a
      run (submit, poll, fetch artifacts, reset), with the part of
      api/client.ts it calls;
    - [Results], [ExportTab], [SummaryTab] and [TimeseriesTab]
      (components/): what each view shows for the props it is given, and
      how [App] wires the hook to them;
    - [ConfigForm] (components/ConfigForm.tsx): the run buttons and the two
      comma-separated sweep inputs.

    Builtins whose output is text or depends on the browser ([toFixed],
    [parseFloat], [trim], [new Date]) are variables of the sections that
    use them.

    Numbers.  The numbers of a payload arrive through [JSON.parse] and
    are doubles; they are taken to be finite, and every finite double is
    a rational: such numbers are values of [Q].  [===] on two of them is
    [Qeq_bool]; the comparator [(a, b) => a - b] is read through its sign
    only, which is the sign of the exact difference.  The products and
    quotients that the sweep pivot, the results table and the chart
    series compute are binary64 results ([Js.mul], [Js.div]): the exact
    result rounded to the nearest double, ties to even, infinite beyond
    the largest double; the sign of zero is not modelled.  In the summary
    cards a product or quotient goes straight to [toFixed], which is a
    variable, and is handed over exact; nothing is stated about its
    digits.  The product in the test of the third warning is binary64.  A property read on a row that does not carry it is
    [undefined], modelled as [None].

    Objects used as maps ([Record<string, number>]) are [gmap string Q].

    React.  The five [useState] cells are a record; a setter is a record
    update.  An [async] action is cut at its [await]: the state it leaves
    there, the request it has issued, and its continuation.  The hook is
    a transition system whose events are its callbacks, one at a time: a
    call of an action up to its [await], the settling of a create-run
    request, [reset], and the settling of a fetch of each query.

    React Query is outside the repository.  What is assumed of it:
    [useQuery] fetches only while [enabled] holds, and with
    [staleTime: Infinity] not at all once it holds data for its key;
    [data] is the value of the last fulfilled fetch for the current key
    and is untouched by a rejected one; a fetch for a key that is no
    longer the current one changes nothing the hook reads; a [useEffect]
    on [data] runs when [data] changes; [mutateAsync] runs [onSuccess] or
    [onError] and then settles as [mutationFn] did, and it does so for
    every call, when the request of that call settles.  Run ids are taken
    to be fresh, so a new key has no cached [data]. *)

From Stdlib Require Import QArith Qabs Lqa Sorted Ascii Permutation.
From stdpp Require Import base option list strings pretty gmap.

Open Scope string_scope.
Open Scope list_scope.

(** ** JavaScript values that the client code handles *)

Module Js.

(** [number | undefined]: what a property read on a row yields. *)
Definition value : Type := option Q.

Definition undefined : value := None.

(** Strict equality [a === b] on [number | undefined]. *)
Definition strict_eq (a b : value) : bool :=
  match a, b with
  | Some p, Some q => Qeq_bool p q
  | None, None => true
  | _, _ => false
  end.

(** SameValueZero, the equality of [Set]; it agrees with [===] away
    from NaN, which [JSON.parse] cannot produce. *)
Definition same_value_zero (a b : value) : bool := strict_eq a b.

(** [[...new Set(xs)]]: the first occurrence of each value, in
    insertion order. *)
Definition set_add (s : list value) (v : value) : list value :=
  if existsb (same_value_zero v) s then s else s ++ [v].

Definition spread_set (xs : list value) : list value :=
  fold_left set_add xs [].

(** The comparator the component passes to [sort].  [sort] reads only
    the sign of what it returns, and the difference of two finite
    doubles rounds to a double of the same sign, so the exact difference
    stands for it. *)
Definition comparefn (a b : Q) : Q := (a - b)%Q.

(** SortCompare of ECMAScript: [undefined] goes last and the comparator
    is not called on it. *)
Definition SortCompare (x y : value) : Q :=
  match x, y with
  | None, None => 0%Q
  | None, Some _ => 1%Q
  | Some _, None => (-1)%Q
  | Some a, Some b => comparefn a b
  end.

(** [Array.prototype.sort] is stable; a stable insertion sort driven by
    SortCompare stands for it.  On the values of a [Set], which differ
    pairwise, the comparator is a strict total order and every sorting
    algorithm returns the same array. *)
Fixpoint sort_insert (x : value) (l : list value) : list value :=
  match l with
  | [] => [x]
  | y :: l' =>
      if Qle_bool (SortCompare x y) 0 then x :: y :: l'
      else y :: sort_insert x l'
  end.

Definition sort (l : list value) : list value :=
  foldr sort_insert [] l.

(** [v || 0] for [v : number | undefined]: [undefined] and [0] are
    falsy. *)
Definition or_zero (v : value) : Q :=
  match v with
  | Some q => if Qeq_bool q 0 then 0%Q else q
  | None => 0%Q
  end.

(** *** binary64 arithmetic *)

(** What an arithmetic operator returns. *)
Inductive float64 : Type :=
| Finite (q : Q)
| PosInfinity
| NegInfinity
| NaN.

(** The integer part of the binary logarithm of [n / d]. *)
Definition floor_log2 (n d : positive) : Z :=
  let k := (Z.log2 (Z.pos n) - Z.log2 (Z.pos d))%Z in
  if (Z.pos d * 2 ^ Z.max k 0 <=? Z.pos n * 2 ^ Z.max (- k) 0)%Z
  then k else (k - 1)%Z.

(** [n / d] rounded to the nearest integer, a tie going to the even
    one. *)
Definition round_half_even (n d : Z) : Z :=
  let q := (n / d)%Z in
  match (2 * (n mod d) ?= d)%Z with
  | Lt => q
  | Gt => (q + 1)%Z
  | Eq => if Z.even q then q else (q + 1)%Z
  end.

(** The double nearest to [n / d]: a significand of at most 53 bits
    times a power of two that is at least [2 ^ -1074]; nothing when the
    result is beyond the largest double. *)
Definition nearest (n d : positive) : option Q :=
  let e := Z.max (floor_log2 n d - 52) (-1074) in
  let m :=
    round_half_even (Z.pos n * 2 ^ Z.max (- e) 0) (Z.pos d * 2 ^ Z.max e 0) in
  if ((0 <=? e) && (2 ^ 1024 <=? m * 2 ^ e))%Z then None
  else Some (Qred (m * 2 ^ Z.max e 0 # Z.to_pos (2 ^ Z.max (- e) 0))).

(** Rounding to nearest, ties to even: how every arithmetic operator
    turns its exact result into a double. *)
Definition round64 (q : Q) : float64 :=
  match Qnum q with
  | Z0 => Finite 0
  | Z.pos n =>
      match nearest n (Qden q) with
      | Some v => Finite v
      | None => PosInfinity
      end
  | Z.neg n =>
      match nearest n (Qden q) with
      | Some v => Finite (- v)
      | None => NegInfinity
      end
  end.

(** [a * b] on two finite doubles. *)
Definition mul (a b : Q) : float64 := round64 (a * b).

(** [a / b] on two finite doubles; a zero divisor is taken as [+0]. *)
Definition div (a b : Q) : float64 :=
  if Qeq_bool b 0 then
    if Qeq_bool a 0 then NaN
    else if Qle_bool 0 a then PosInfinity else NegInfinity
  else round64 (a / b).

(** [x > y] for a finite double and the result of an operator. *)
Definition gt (x : Q) (y : float64) : bool :=
  match y with
  | Finite q => negb (Qle_bool x q)
  | PosInfinity => false
  | NegInfinity => true
  | NaN => false
  end.

(** [!!s] for [s : string | null]: [null] and the empty string are
    falsy. *)
Definition truthy_string (s : option string) : bool :=
  match s with
  | Some EmptyString => false
  | Some _ => true
  | None => false
  end.

(** Numeric order on axis values, [undefined] above every number. *)
Definition lt (a b : value) : Prop :=
  match a, b with
  | Some p, Some q => (p < q)%Q
  | Some _, None => True
  | None, _ => False
  end.

(** The values [===] identifies. *)
Definition equiv (a b : value) : Prop :=
  match a, b with
  | Some p, Some q => (p == q)%Q
  | None, None => True
  | _, _ => False
  end.

(** No two values of the list are identified by [===]. *)
Definition distinct (l : list value) : Prop :=
  StronglySorted (fun a b => ~ equiv a b) l.

(** An [Error] object; the client reads only its [message]. *)
Record Error : Type := mkError { message : string }.

(** How a promise settles. *)
Inductive Settled (A : Type) : Type :=
| Fulfilled (a : A)
| Rejected (e : Error).
Arguments Fulfilled {A} a.
Arguments Rejected {A} e.

End Js.

(** ** types/index.ts *)

Module TimeseriesData.
Record t : Type := mk {
  index : list string;
  columns : list string;
  data : list (list Q)
}.
End TimeseriesData.

Module SweepData.
Record t : Type := mk {
  columns : list string;
  data : list (gmap string Q)
}.
End SweepData.

Module RunStatus.
(** ['queued' | 'running' | 'done' | 'error'] *)
Inductive state : Type := queued | running | done | error.

#[global] Instance state_eq_dec : EqDecision state.
Proof. solve_decision. Defined.

Record t : Type := mk {
  status : state;
  progress : Q;
  message : string;
  metrics : option (gmap string Q)
}.
End RunStatus.

Module Types.

Inductive WeatherSource : Type := nsrdb.
Inductive DcModel : Type := pvwatts | singlediode.
Inductive CouplingMode : Type := mppt_bus.
Inductive Mode : Type := single | sweep.

Record SiteConfig : Type := mkSiteConfig {
  name : string;
  latitude : Q;
  longitude : Q;
  timezone : string;
  altitude_m : option Q
}.

Record WeatherConfig : Type := mkWeatherConfig {
  source : WeatherSource;
  years : list Q;
  interval_min : Q;
  leap_day : bool;
  cache_dir : string
}.

Record PVConfig : Type := mkPVConfig {
  surface_tilt_deg : Q;
  surface_azimuth_deg : Q;
  dc_nameplate_kw : Q;
  dc_model : DcModel;
  gamma_pdc_per_c : Q;
  mppt_eff : Q;
  dc_wiring_eff : Q
}.

Record BatteryConfig : Type := mkBatteryConfig {
  energy_capacity_kwh : Q;
  soc_init : Q;
  soc_min : Q;
  soc_max : Q;
  ocv_soc : list Q;
  ocv_v : list Q;
  r_internal_ohm : Q;
  i_charge_max_a : Q;
  i_discharge_max_a : Q;
  charge_eff : Q;
  discharge_eff : Q
}.

Record GPUConfig : Type := mkGPUConfig {
  n_gpus : Q;
  p_idle_w : Q;
  p_max_w : Q;
  flops_peak_per_gpu : Q;
  power_exponent : Q
}.

Record GovernorConfig : Type := mkGovernorConfig {
  enabled : bool;
  reserve_soc : Q;
  safety_factor : Q;
  ramp_limit_w_per_step : Q
}.

Record SimConfig : Type := mkSimConfig {
  dt_min : Q;
  coupling_mode : CouplingMode
}.

Record FullConfig : Type := mkFullConfig {
  site : SiteConfig;
  weather : WeatherConfig;
  pv : PVConfig;
  battery : BatteryConfig;
  gpu : GPUConfig;
  governor : GovernorConfig;
  sim : SimConfig
}.

Record RunOptions : Type := mkRunOptions {
  single_year : option Q;
  use_all_years : bool;
  pv_kw_list : list Q;
  batt_kwh_list : list Q
}.

Record RunRequest : Type := mkRunRequest {
  mode : Mode;
  config : FullConfig;
  run_options : RunOptions
}.

Record RunResponse : Type := mkRunResponse { run_id : string }.

(** [defaultConfig] and [defaultRunOptions] *)
Definition defaultConfig : FullConfig :=
  {| site :=
       {| name := "Default Site"; latitude := 31.9686; longitude := -99.9018;
          timezone := "America/Chicago"; altitude_m := None |};
     weather :=
       {| source := nsrdb;
          years := map (fun i : nat => inject_Z (2003 + Z.of_nat i)) (seq 0 20);
          interval_min := 30; leap_day := false; cache_dir := "./cache" |};
     pv :=
       {| surface_tilt_deg := 20.0; surface_azimuth_deg := 180.0;
          dc_nameplate_kw := 1.0; dc_model := pvwatts;
          gamma_pdc_per_c := -0.003; mppt_eff := 0.99; dc_wiring_eff := 0.99 |};
     battery :=
       {| energy_capacity_kwh := 10.0; soc_init := 0.5; soc_min := 0.05;
          soc_max := 0.95; ocv_soc := [0.0; 0.2; 0.5; 0.8; 1.0]%Q;
          ocv_v := [3.0; 3.4; 3.65; 3.9; 4.1]%Q; r_internal_ohm := 0.02;
          i_charge_max_a := 200.0; i_discharge_max_a := 200.0;
          charge_eff := 0.97; discharge_eff := 0.97 |};
     gpu :=
       {| n_gpus := 1; p_idle_w := 80.0; p_max_w := 700.0;
          flops_peak_per_gpu := 1e15; power_exponent := 3.0 |};
     governor :=
       {| enabled := true; reserve_soc := 0.07; safety_factor := 0.95;
          ramp_limit_w_per_step := 200.0 |};
     sim := {| dt_min := 30; coupling_mode := mppt_bus |} |}.

Definition defaultRunOptions : RunOptions :=
  {| single_year := Some 2021%Q; use_all_years := false;
     pv_kw_list := [0; 0.5; 1; 2; 3; 4; 5]%Q;
     batt_kwh_list := [0; 2; 5; 10; 20]%Q |}.

End Types.

(** ** components/SweepTab.tsx: the [useMemo] block *)

Module SweepTab.

Record Heatmap : Type := mkHeatmap {
  z : list (list Js.float64);
  x : list Js.value;
  y : list Js.value
}.

Section Pivot.
Variable data : SweepData.t.

(** [[...new Set(data.data.map((r) => r.pv_kw))].sort((a, b) => a - b)] *)
Definition pvSizes : list Js.value :=
  Js.sort
    (Js.spread_set
       (map (fun r : gmap string Q => r !! "pv_kw") (SweepData.data data))).

Definition battSizes : list Js.value :=
  Js.sort
    (Js.spread_set
       (map (fun r : gmap string Q => r !! "batt_kwh") (SweepData.data data))).

(** [data.data.find((r) => r.pv_kw === pv && r.batt_kwh === batt)] *)
Definition find_row (pv batt : Js.value) : option (gmap string Q) :=
  List.find
    (fun r : gmap string Q =>
       Js.strict_eq (r !! "pv_kw") pv && Js.strict_eq (r !! "batt_kwh") batt)
    (SweepData.data data).

(** [row ? (row.utilization || 0) * 100 : 0] *)
Definition utilizationCell (row : option (gmap string Q)) : Js.float64 :=
  match row with
  | Some r => Js.mul (Js.or_zero (r !! "utilization")) 100
  | None => Js.Finite 0
  end.

(** [row ? row.total_flops || 0 : 0] *)
Definition flopsCell (row : option (gmap string Q)) : Q :=
  match row with
  | Some r => Js.or_zero (r !! "total_flops")
  | None => 0%Q
  end.

(** The inner [for (const pv of pvSizes)] loop: both rows grow by one
    [push] per column, in the same pass. *)
Definition inner_loop (batt : Js.value) : list Js.float64 * list Q :=
  fold_left
    (fun (acc : list Js.float64 * list Q) (pv : Js.value) =>
       let '(utilizationRow, flopsRow) := acc in
       let row := find_row pv batt in
       (utilizationRow ++ [utilizationCell row], flopsRow ++ [flopsCell row]))
    pvSizes ([], []).

(** The outer [for (const batt of battSizes)] loop. *)
Definition outer_loop : list (list Js.float64) * list (list Q) :=
  fold_left
    (fun (acc : list (list Js.float64) * list (list Q)) (batt : Js.value) =>
       let '(utilizationMatrix, flopsMatrix) := acc in
       let '(utilizationRow, flopsRow) := inner_loop batt in
       (utilizationMatrix ++ [utilizationRow], flopsMatrix ++ [flopsRow]))
    battSizes ([], []).

Definition utilizationMatrix : list (list Js.float64) := fst outer_loop.
Definition flopsMatrix : list (list Q) := snd outer_loop.

Definition utilizationHeatmap : Heatmap :=
  {| z := utilizationMatrix; x := pvSizes; y := battSizes |}.

(** [flopsMatrix.map((row) => row.map((v) => v / 1e15))] *)
Definition flopsHeatmap : Heatmap :=
  {| z := map (fun row => map (fun v => Js.div v 1e15) row) flopsMatrix;
     x := pvSizes;
     y := battSizes |}.
End Pivot.

(** *** Vocabulary for the properties of the pivot *)

(** [M[i][j]] *)
Definition cell {A : Type} (M : list (list A)) (i j : nat) : option A :=
  match nth_error M i with
  | Some row => nth_error row j
  | None => None
  end.

(** The row sits at the point [(x, y)] of the sweep. *)
Definition matches (x y : Js.value) (r : gmap string Q) : Prop :=
  Js.equiv (r !! "pv_kw") x /\ Js.equiv (r !! "batt_kwh") y.

(** [r] is the first row of [rows] at the point [(x, y)]. *)
Definition first_match (rows : list (gmap string Q)) (x y : Js.value)
    (r : gmap string Q) : Prop :=
  exists pre post,
    rows = pre ++ r :: post /\
    matches x y r /\
    Forall (fun r' => ~ matches x y r') pre.

(** A metric read off a row: its value, or 0 when the row lacks it. *)
Definition field_or_zero (v : Js.value) : Q :=
  match v with
  | Some q => q
  | None => 0%Q
  end.

(** The row sits at the grid point of the numbers [x] and [y]. *)
Definition at_point (x y : Q) (r : gmap string Q) : bool :=
  Js.strict_eq (r !! "pv_kw") (Some x) && Js.strict_eq (r !! "batt_kwh") (Some y).

(** A fully dense row set over the grid [xs] by [ys]: exactly one row at
    every grid point, and no row off the grid. *)
Definition dense_grid (xs ys : list Q) (rows : list (gmap string Q)) : bool :=
  forallb
    (fun x =>
       forallb (fun y => Nat.eqb (length (List.filter (at_point x y) rows)) 1) ys)
    xs
  && forallb
       (fun r => existsb (fun x => existsb (fun y => at_point x y r) ys) xs)
       rows.

(** *** Two sweeps used by the examples *)

Definition row_1_2 : gmap string Q :=
  {[ "pv_kw" := 1%Q; "batt_kwh" := 2%Q;
     "utilization" := 0.5%Q; "total_flops" := 10%Q ]}.

Definition row_2_2 : gmap string Q :=
  {[ "pv_kw" := 2%Q; "batt_kwh" := 2%Q;
     "utilization" := 0.25%Q; "total_flops" := 20%Q ]}.

(** A row without the [utilization] metric. *)
Definition row_1_4 : gmap string Q :=
  {[ "pv_kw" := 1%Q; "batt_kwh" := 4%Q; "total_flops" := 30%Q ]}.

Definition row_2_4 : gmap string Q :=
  {[ "pv_kw" := 2%Q; "batt_kwh" := 4%Q;
     "utilization" := 0.75%Q; "total_flops" := 40%Q ]}.

(** Three of the four points of the grid [{1, 2}] by [{2, 4}]. *)
Definition sparse_sweep : SweepData.t :=
  SweepData.mk ["pv_kw"; "batt_kwh"; "utilization"; "total_flops"]
    [row_1_2; row_2_2; row_1_4].

(** All four points, not in order. *)
Definition dense_sweep : SweepData.t :=
  SweepData.mk ["pv_kw"; "batt_kwh"; "utilization"; "total_flops"]
    [row_2_4; row_1_2; row_1_4; row_2_2].

(** The double that [JSON.parse] reads from [0.07]. *)
Definition seven_hundredths : Q := 1261007895663739 # 18014398509481984.

(** A sweep of one row, whose utilization is 7 %. *)
Definition row_7_percent : gmap string Q :=
  {[ "pv_kw" := 1%Q; "batt_kwh" := 2%Q;
     "utilization" := seven_hundredths; "total_flops" := 1e15%Q ]}.

Definition one_row_sweep : SweepData.t :=
  SweepData.mk ["pv_kw"; "batt_kwh"; "utilization"; "total_flops"]
    [row_7_percent].

End SweepTab.

(** ** api/client.ts *)

Module Api.
Import Js.

(** What [fetch] hands back: the status line, and how [response.text()]
    and [response.json()] settle. *)
Record Response (T : Type) : Type := mkResponse {
  status : Z;
  text : Settled string;
  json : Settled T
}.
Arguments mkResponse {T} status text json.
Arguments status {T} r.
Arguments text {T} r.
Arguments json {T} r.

(** [response.ok]: the status is in the range 200-299. *)
Definition ok {T : Type} (r : Response T) : bool :=
  (200 <=? status r)%Z && (status r <=? 299)%Z.

(** How the [fetch] call itself settles. *)
Inductive FetchOutcome (T : Type) : Type :=
| NetworkFailure (e : Error)
| Responded (r : Response T).
Arguments NetworkFailure {T} e.
Arguments Responded {T} r.

(** [fetchJson]: a response that is not ok is thrown as
    [new Error(`API error: ${response.status} - ${error}`)]. *)
Definition fetchJson {T : Type} (outcome : FetchOutcome T) : Settled T :=
  match outcome with
  | NetworkFailure e => Rejected e
  | Responded response =>
      if negb (ok response) then
        match text response with
        | Fulfilled error =>
            Rejected
              (mkError ("API error: " +:+ pretty (status response) +:+ " - " +:+ error))
        | Rejected e => Rejected e
        end
      else json response
  end.

(** The HTTP answer the backend gives for a run that has no sweep. *)
Definition not_found {T : Type} (outcome : FetchOutcome T) : bool :=
  match outcome with
  | Responded response => (status response =? 404)%Z
  | NetworkFailure _ => false
  end.

End Api.

(** ** hooks/useSimulation.ts *)

Module UseSimulation.
Import Js Types.

(** The five [useState] cells. *)
Record State : Type := mkState {
  runId : option string;
  status : option RunStatus.t;
  timeseries : option TimeseriesData.t;
  sweep : option SweepData.t;
  error : option string
}.

Definition initial : State :=
  {| runId := None; status := None; timeseries := None; sweep := None;
     error := None |}.

Definition setRunId (v : option string) (s : State) : State :=
  {| runId := v; status := status s; timeseries := timeseries s;
     sweep := sweep s; error := error s |}.

Definition setStatus (v : option RunStatus.t) (s : State) : State :=
  {| runId := runId s; status := v; timeseries := timeseries s;
     sweep := sweep s; error := error s |}.

Definition setTimeseries (v : option TimeseriesData.t) (s : State) : State :=
  {| runId := runId s; status := status s; timeseries := v;
     sweep := sweep s; error := error s |}.

Definition setSweep (v : option SweepData.t) (s : State) : State :=
  {| runId := runId s; status := status s; timeseries := timeseries s;
     sweep := v; error := error s |}.

Definition setError (v : option string) (s : State) : State :=
  {| runId := runId s; status := status s; timeseries := timeseries s;
     sweep := sweep s; error := v |}.

(** [status?.status === lit] *)
Definition status_is (lit : RunStatus.state) (s : State) : bool :=
  bool_decide (RunStatus.status <$> status s = Some lit).

(** [status?.status === 'queued' || status?.status === 'running'] *)
Definition isRunning (s : State) : bool :=
  status_is RunStatus.queued s || status_is RunStatus.running s.

(** The options the hook passes to [useQuery]. *)
Inductive StaleTime : Type := Infinity.

Record QueryOptions : Type := mkQueryOptions {
  queryKey : string * option string;
  enabled : bool;
  refetchInterval : option Z;
  staleTime : option StaleTime;
  retry : option bool
}.

Definition pollQuery (s : State) : QueryOptions :=
  {| queryKey := ("runStatus", runId s);
     enabled := truthy_string (runId s) && isRunning s;
     refetchInterval := Some 1000%Z;
     staleTime := None;
     retry := None |}.

Definition timeseriesQuery (s : State) : QueryOptions :=
  {| queryKey := ("timeseries", runId s);
     enabled := truthy_string (runId s) && status_is RunStatus.done s;
     refetchInterval := None;
     staleTime := Some Infinity;
     retry := None |}.

Definition sweepQuery (s : State) : QueryOptions :=
  {| queryKey := ("sweep", runId s);
     enabled := truthy_string (runId s) && status_is RunStatus.done s;
     refetchInterval := None;
     staleTime := Some Infinity;
     retry := Some false |}.

(** The three [useEffect] bodies, run when the [data] of their query
    changes. *)
Definition pollEffect (pollStatus : option RunStatus.t) (s : State) : State :=
  match pollStatus with
  | Some d => setStatus (Some d) s
  | None => s
  end.

Definition timeseriesEffect (timeseriesData : option TimeseriesData.t) (s : State) : State :=
  match timeseriesData with
  | Some d => setTimeseries (Some d) s
  | None => s
  end.

Definition sweepEffect (sweepData : option SweepData.t) (s : State) : State :=
  match sweepData with
  | Some d => setSweep (Some d) s
  | None => s
  end.

(** A query fetch settles.  The hook reads only [data] of the query
    result: a fulfilled fetch gives new data and the effect runs on it;
    a rejected fetch leaves [data] as it was, the effect's dependency is
    unchanged and nothing runs. *)
Definition querySettled {A : Type} (effect : option A -> State -> State)
    (r : Settled A) (s : State) : State :=
  match r with
  | Fulfilled d => effect (Some d) s
  | Rejected _ => s
  end.

(** [createRunMutation]: the two callbacks of [useMutation]. *)
Record Mutation : Type := mkMutation {
  onSuccess : RunResponse -> State -> State;
  onError : Error -> State -> State
}.

Definition createRunMutation : Mutation :=
  {| onSuccess data s :=
       let s := setRunId (Some (run_id data)) s in
       let s :=
         setStatus
           (Some
              {| RunStatus.status := RunStatus.queued;
                 RunStatus.progress := 0;
                 RunStatus.message := "Run queued";
                 RunStatus.metrics := None |}) s in
       setError None s;
     onError err s := setError (Some (message err)) s |}.

(** [mutateAsync]: the callback runs, then the returned promise settles
    the way [mutationFn] did. *)
Definition mutateAsync (m : Mutation) (r : Settled RunResponse) (s : State)
    : State * Settled RunResponse :=
  match r with
  | Fulfilled data => (onSuccess m data s, Fulfilled data)
  | Rejected err => (onError m err s, Rejected err)
  end.

(** An [async] action suspended at its [await]: the state it left
    behind, the create-run request it issued, and what it does when the
    request settles (on the state at that moment). *)
Record Suspended : Type := mkSuspended {
  at_await : State;
  request : RunRequest;
  resume : Settled RunResponse -> State -> State * Settled unit
}.

(** [await createRunMutation.mutateAsync(request)] inside an [async]
    arrow function that returns nothing: a rejection of the awaited
    promise rejects the action's own promise. *)
Definition await_mutateAsync (r : Settled RunResponse) (s : State)
    : State * Settled unit :=
  match mutateAsync createRunMutation r s with
  | (s', Fulfilled _) => (s', Fulfilled tt)
  | (s', Rejected e) => (s', Rejected e)
  end.

Definition runSingle (config : FullConfig) (options : RunOptions) (s : State)
    : Suspended :=
  let s := setTimeseries None s in
  let s := setSweep None s in
  {| at_await := s;
     request := {| mode := Types.single; config := config; run_options := options |};
     resume := await_mutateAsync |}.

Definition runSweep (config : FullConfig) (options : RunOptions) (s : State)
    : Suspended :=
  let s := setTimeseries None s in
  let s := setSweep None s in
  {| at_await := s;
     request := {| mode := Types.sweep; config := config; run_options := options |};
     resume := await_mutateAsync |}.

Definition reset (s : State) : State :=
  let s := setRunId None s in
  let s := setStatus None s in
  let s := setTimeseries None s in
  let s := setSweep None s in
  setError None s.

(** The action when its request settles before anything else happens,
    in the state the action left at its [await].  In general other
    callbacks run in between and the continuation is [resume] on the
    state of that moment, which is how [Live.dispatch] below takes it. *)
Definition settle (p : Suspended) (created : Api.FetchOutcome RunResponse)
    : State * Settled unit :=
  resume p (Api.fetchJson created) (at_await p).

(** What the hook returns to the component. *)
Record UseSimulationResult : Type := mkResult {
  res_runId : option string;
  res_status : option RunStatus.t;
  res_isRunning : bool;
  res_error : option string;
  res_timeseries : option TimeseriesData.t;
  res_sweep : option SweepData.t
}.

Definition useSimulation (s : State) : UseSimulationResult :=
  {| res_runId := runId s;
     res_status := status s;
     res_isRunning := isRunning s;
     res_error := error s;
     res_timeseries := timeseries s;
     res_sweep := sweep s |}.

(** *** A worked scenario, used by the examples *)

Definition answer {T : Type} (d : T) : Api.FetchOutcome T :=
  Api.Responded (Api.mkResponse 200 (Fulfilled "") (Fulfilled d)).

Definition refusal {T : Type} (code : Z) (body : string) : Api.FetchOutcome T :=
  Api.Responded
    (Api.mkResponse code (Fulfilled body)
       (Rejected (mkError "Unexpected end of JSON input"))).

Definition polled (st : RunStatus.state) (pct : Q) (msg : string) : RunStatus.t :=
  RunStatus.mk st pct msg None.

Definition some_timeseries : TimeseriesData.t :=
  TimeseriesData.mk ["2021-01-01T00:00"] ["p_pv_w"] [[1%Q]].

Definition some_sweep : SweepData.t :=
  SweepData.mk ["pv_kw"; "batt_kwh"] [{[ "pv_kw" := 1%Q; "batt_kwh" := 2%Q ]}].

(** A hook that has taken a run to the end and shows its artifacts. *)
Definition finished : State :=
  {| runId := Some "run-1";
     status := Some (polled RunStatus.done 100 "Complete");
     timeseries := Some some_timeseries;
     sweep := Some some_sweep;
     error := None |}.

(** A single-mode run that is done; its sweep fetch has not settled. *)
Definition awaiting_sweep : State :=
  {| runId := Some "run-1";
     status := Some (polled RunStatus.done 100 "Complete");
     timeseries := Some some_timeseries;
     sweep := None;
     error := None |}.

(** A hook whose run was just accepted by the backend. *)
Definition accepted : State :=
  {| runId := Some "run-1";
     status := Some (polled RunStatus.queued 0 "Run queued");
     timeseries := None;
     sweep := None;
     error := None |}.

(** A run that was just reported done; no artifact has arrived. *)
Definition just_done : State :=
  {| runId := Some "run-1";
     status := Some (polled RunStatus.done 100 "Complete");
     timeseries := None;
     sweep := None;
     error := None |}.

End UseSimulation.

(** ** hooks/useSimulation.ts as a transition system *)

Module Live.
Import Js Types UseSimulation.

(** The hook between two renders: the five state cells; how many
    create-run requests have been issued and not settled yet; and, for
    each of the two artifact queries, the [data] that React Query holds
    for the current key. *)
Record Hook : Type := mkHook {
  cells : State;
  pending : nat;
  timeseriesData : option TimeseriesData.t;
  sweepData : option SweepData.t
}.

Definition mounted : Hook :=
  {| cells := initial; pending := 0; timeseriesData := None;
     sweepData := None |}.

(** A setter was called; the queries keep their keys and their data. *)
Definition with_cells (s : State) (h : Hook) : Hook :=
  {| cells := s; pending := pending h; timeseriesData := timeseriesData h;
     sweepData := sweepData h |}.

(** The handle was replaced, and with it the key of every query: a new
    key has no data. *)
Definition with_new_key (s : State) (h : Hook) : Hook :=
  {| cells := s; pending := pending h; timeseriesData := None;
     sweepData := None |}.

(** [staleTime: Infinity]: a query that holds data for its key never
    fetches again. *)
Definition has_data {A : Type} (data : option A) : bool :=
  match data with
  | Some _ => true
  | None => false
  end.

(** The artifact queries fetch while they are enabled and hold no data
    for the current key. *)
Definition fetches_timeseries (h : Hook) : bool :=
  enabled (timeseriesQuery (cells h)) && negb (has_data (timeseriesData h)).

Definition fetches_sweep (h : Hook) : bool :=
  enabled (sweepQuery (cells h)) && negb (has_data (sweepData h)).

(** The [data] of a query after a fetch has settled. *)
Definition data_after {A : Type} (r : Settled A) (data : option A) : option A :=
  match r with
  | Fulfilled d => Some d
  | Rejected _ => data
  end.

(** Every callback of the hook on its own: the synchronous part of an
    action, the settling of a create-run request, [reset], and the
    settling of a fetch of each query. *)
Inductive Event : Type :=
| RunSingleCalled (config : FullConfig) (options : RunOptions)
| RunSweepCalled (config : FullConfig) (options : RunOptions)
| CreateRunSettled (created : Api.FetchOutcome RunResponse)
| ResetCalled
| StatusSettled (o : Api.FetchOutcome RunStatus.t)
| TimeseriesSettled (o : Api.FetchOutcome TimeseriesData.t)
| SweepSettled (o : Api.FetchOutcome SweepData.t).

(** One event; [None] when it cannot happen in this state.  A create-run
    request settles only if one is in flight.  A fetch of the status
    query settles only while the query is enabled; a fetch of an
    artifact query only while it is enabled and holds no data.  A
    fulfilled create-run request and [reset] replace the handle. *)
Definition dispatch (e : Event) (h : Hook) : option Hook :=
  match e with
  | RunSingleCalled config options =>
      Some
        {| cells := at_await (runSingle config options (cells h));
           pending := S (pending h);
           timeseriesData := timeseriesData h;
           sweepData := sweepData h |}
  | RunSweepCalled config options =>
      Some
        {| cells := at_await (runSweep config options (cells h));
           pending := S (pending h);
           timeseriesData := timeseriesData h;
           sweepData := sweepData h |}
  | CreateRunSettled created =>
      match pending h with
      | O => None
      | S n =>
          let s := fst (await_mutateAsync (Api.fetchJson created) (cells h)) in
          match Api.fetchJson created with
          | Fulfilled _ =>
              Some
                {| cells := s; pending := n; timeseriesData := None;
                   sweepData := None |}
          | Rejected _ =>
              Some
                {| cells := s; pending := n;
                   timeseriesData := timeseriesData h;
                   sweepData := sweepData h |}
          end
      end
  | ResetCalled => Some (with_new_key (reset (cells h)) h)
  | StatusSettled o =>
      if enabled (pollQuery (cells h))
      then Some (with_cells (querySettled pollEffect (Api.fetchJson o) (cells h)) h)
      else None
  | TimeseriesSettled o =>
      if fetches_timeseries h
      then
        Some
          {| cells := querySettled timeseriesEffect (Api.fetchJson o) (cells h);
             pending := pending h;
             timeseriesData := data_after (Api.fetchJson o) (timeseriesData h);
             sweepData := sweepData h |}
      else None
  | SweepSettled o =>
      if fetches_sweep h
      then
        Some
          {| cells := querySettled sweepEffect (Api.fetchJson o) (cells h);
             pending := pending h;
             timeseriesData := timeseriesData h;
             sweepData := data_after (Api.fetchJson o) (sweepData h) |}
      else None
  end.

(** The hooks visited by a sequence of events, one per event; [None]
    when some event could not happen where it stands. *)
Fixpoint trace (es : list Event) (h : Hook) : option (list Hook) :=
  match es with
  | [] => Some []
  | e :: es' =>
      match dispatch e h with
      | Some h' =>
          match trace es' h' with
          | Some hs => Some (h' :: hs)
          | None => None
          end
      | None => None
      end
  end.

(** The hook a sequence of events ends in. *)
Fixpoint replay (es : list Event) (h : Hook) : option Hook :=
  match es with
  | [] => Some h
  | e :: es' =>
      match dispatch e h with
      | Some h' => replay es' h'
      | None => None
      end
  end.

(** What a mounted hook can get to. *)
Definition reachable (h : Hook) : Prop :=
  exists es, replay es mounted = Some h.

(** The handle and the status come and go together, and a ['done']
    status has a handle that is not the empty string. *)
Definition consistent (s : State) : Prop :=
  (runId s = None <-> status s = None) /\
  (status_is RunStatus.done s = true -> truthy_string (runId s) = true).

(** A call of [runSingle] or [runSweep]: a submit. *)
Definition is_call (e : Event) : bool :=
  match e with
  | RunSingleCalled _ _ | RunSweepCalled _ _ => true
  | _ => false
  end.

(** A create-run request that is fulfilled: the only event that starts
    a run. *)
Definition accepts (e : Event) : bool :=
  match e with
  | CreateRunSettled created =>
      match Api.fetchJson created with
      | Fulfilled _ => true
      | Rejected _ => false
      end
  | _ => false
  end.

(** A create-run request that is fulfilled, or a [reset]: the two events
    that clear the error field. *)
Definition clears_error (e : Event) : bool :=
  match e with
  | CreateRunSettled created =>
      match Api.fetchJson created with
      | Fulfilled _ => true
      | Rejected _ => false
      end
  | ResetCalled => true
  | _ => false
  end.

(** The events that write the error field at all: a create-run request
    settling, either way, and [reset]. *)
Definition writes_error (e : Event) : bool :=
  match e with
  | CreateRunSettled _ | ResetCalled => true
  | _ => false
  end.

(** *** The worked scenario as hooks, each reached from [mounted] *)

(** After a call and an accepted request. *)
Definition hook_accepted : Hook :=
  {| cells := accepted; pending := 0; timeseriesData := None;
     sweepData := None |}.

(** After the poll that reported done; both artifact fetches are
    outstanding. *)
Definition hook_just_done : Hook :=
  {| cells := just_done; pending := 0; timeseriesData := None;
     sweepData := None |}.

(** After the timeseries has arrived; the sweep fetch is outstanding. *)
Definition hook_awaiting_sweep : Hook :=
  {| cells := awaiting_sweep; pending := 0;
     timeseriesData := Some some_timeseries; sweepData := None |}.

(** After both artifacts have arrived. *)
Definition hook_finished : Hook :=
  {| cells := finished; pending := 0;
     timeseriesData := Some some_timeseries; sweepData := Some some_sweep |}.

End Live.

(** ** components/ExportTab.tsx and [api.getDownloadUrl] *)

Module ExportTab.
Import Js.

(** [`${API_BASE}/api/runs/${runId}/download/${artifact}`]; [API_BASE]
    is fixed when the client is built. *)
Definition getDownloadUrl (API_BASE runId artifact : string) : string :=
  API_BASE +:+ "/api/runs/" +:+ runId +:+ "/download/" +:+ artifact.

Record Download : Type := mkDownload {
  name : string;
  artifact : string;
  description : string
}.

(** The [downloads] array; the sweep entry is spread in only when
    [hasSweep] holds. *)
Definition downloads (hasSweep : bool) : list Download :=
  [ {| name := "Timeseries CSV"; artifact := "timeseries.csv";
       description := "Time series data for all simulation variables" |} ]
  ++ (if hasSweep
      then [ {| name := "Sweep CSV"; artifact := "sweep.csv";
                description :=
                  "Sweep results for all parameter combinations" |} ]
      else [])
  ++ [ {| name := "Metrics JSON"; artifact := "metrics.json";
          description := "Summary metrics from the simulation" |};
       {| name := "Config JSON"; artifact := "config.json";
          description := "Configuration used for this run" |} ].

(** One rendered [download-item]: its React key, the link target and the
    suggested file name. *)
Record Item : Type := mkItem {
  key : string;
  label : string;
  href : string;
  download : string
}.

Inductive View : Type :=
| NoRun
| DownloadList (items : list Item).

Definition ExportTab (API_BASE : string) (runId : option string)
    (hasSweep : bool) : View :=
  if negb (truthy_string runId) then NoRun
  else
    let id := default "" runId in
    DownloadList
      (map
         (fun dl =>
            {| key := artifact dl;
               label := name dl;
               href := getDownloadUrl API_BASE id (artifact dl);
               download := artifact dl |})
         (downloads hasSweep)).

End ExportTab.

(** ** components/Results.tsx *)

Module Results.
Import Js.

Inductive TabId : Type := summary | timeseries | sweep | export.

#[global] Instance TabId_eq_dec : EqDecision TabId.
Proof. solve_decision. Defined.

Record Props : Type := mkProps {
  status : option RunStatus.t;
  timeseries_data : option TimeseriesData.t;
  sweep_data : option SweepData.t;
  runId : option string;
  error : option string
}.

(** What is mounted inside [tab-content]. *)
Inductive Content : Type :=
| SummaryTab (metrics : option (gmap string Q))
| TimeseriesTab (data : TimeseriesData.t)
| SweepTab (data : SweepData.t)
| ExportTab (runId : option string) (hasSweep : bool).

(** The four tab buttons and the content under them. *)
Record Tabbed : Type := mkTabbed {
  active : TabId;
  timeseries_disabled : bool;
  sweep_disabled : bool;
  content : list Content
}.

Inductive View : Type :=
| ErrorState (message : string)
| EmptyState
| LoadingState (progress : Q) (message : string)
| SimulationError (message : string)
| Done (tabs : Tabbed).

(** [{cond && <Tab/>}]: the element when the condition holds, nothing
    otherwise. *)
Definition when (cond : bool) (c : Content) : list Content :=
  if cond then [c] else [].

(** [x && <Tab data={x}/>] for an object or [null]. *)
Definition with_data {A : Type} (x : option A) (tab : A -> Content)
    : list Content :=
  match x with
  | Some d => [tab d]
  | None => []
  end.

Definition Results (p : Props) (activeTab : TabId) : View :=
  if truthy_string (error p) then ErrorState (default "" (error p))
  else
    match status p with
    | None => EmptyState
    | Some st =>
        match RunStatus.status st with
        | RunStatus.queued | RunStatus.running =>
            LoadingState (RunStatus.progress st) (RunStatus.message st)
        | RunStatus.error => SimulationError (RunStatus.message st)
        | RunStatus.done =>
            Done
              {| active := activeTab;
                 timeseries_disabled := negb (bool_decide (is_Some (timeseries_data p)));
                 sweep_disabled := negb (bool_decide (is_Some (sweep_data p)));
                 content :=
                   when (bool_decide (activeTab = summary))
                     (SummaryTab (RunStatus.metrics st))
                   ++ (if bool_decide (activeTab = timeseries)
                       then with_data (timeseries_data p) TimeseriesTab
                       else [])
                   ++ (if bool_decide (activeTab = sweep)
                       then with_data (sweep_data p) SweepTab
                       else [])
                   ++ when (bool_decide (activeTab = export))
                        (ExportTab (runId p)
                           (bool_decide (is_Some (sweep_data p)))) |}
        end
    end.

End Results.

(** ** App.tsx and the run buttons of components/ConfigForm.tsx *)

Module App.
Import Js UseSimulation.

(** The props [AppContent] hands to [Results]. *)
Definition results_props (s : State) : Results.Props :=
  {| Results.status := status s;
     Results.timeseries_data := timeseries s;
     Results.sweep_data := sweep s;
     Results.runId := runId s;
     Results.error := error s |}.

(** The right panel. *)
Definition results_panel (s : State) (activeTab : Results.TabId) : Results.View :=
  Results.Results (results_props s) activeTab.

(** A run button of [ConfigForm]: [disabled={isRunning}] and
    [{isRunning ? 'Running...' : label}]. *)
Record Button : Type := mkButton {
  disabled : bool;
  caption : string
}.

Definition run_button (label : string) (isRunning : bool) : Button :=
  {| disabled := isRunning;
     caption := if isRunning then "Running..." else label |}.

Definition run_buttons (s : State) : Button * Button :=
  (run_button "Run Single" (UseSimulation.isRunning s),
   run_button "Run Sweep" (UseSimulation.isRunning s)).

End App.

(** ** components/TimeseriesTab.tsx *)

Module TimeseriesTab.

(** [v / k] and [v * k] for [v : number | undefined]: binary64 on a
    number, [NaN] on [undefined]. *)
Definition div (v : Js.value) (k : Q) : Js.float64 :=
  match v with
  | Some q => Js.div q k
  | None => Js.NaN
  end.

Definition mul (v : Js.value) (k : Q) : Js.float64 :=
  match v with
  | Some q => Js.mul q k
  | None => Js.NaN
  end.

(** [columns.indexOf(name)]: the first position of [name], or -1. *)
Fixpoint indexOf_from (i : Z) (name : string) (l : list string) : Z :=
  match l with
  | [] => (-1)%Z
  | c :: l' => if String.eqb c name then i else indexOf_from (i + 1)%Z name l'
  end.

Definition indexOf (name : string) (l : list string) : Z :=
  indexOf_from 0%Z name l.

(** [arr.slice(start, end)] for integer arguments: a negative argument
    counts from the end, and both are clamped to the array. *)
Definition slice_bound (len i : Z) : Z :=
  if (i <? 0)%Z then Z.max (len + i) 0 else Z.min i len.

Definition slice {A : Type} (start end_ : Z) (l : list A) : list A :=
  let len := Z.of_nat (length l) in
  let k := slice_bound len start in
  let final := slice_bound len end_ in
  take (Z.to_nat (Z.max (final - k) 0)) (drop (Z.to_nat k) l).

(** [row[idx]] for an index that [indexOf] found. *)
Definition at_index (row : list Q) (idx : Z) : Js.value :=
  nth_error row (Z.to_nat idx).

Record Traces : Type := mkTraces {
  timestamps : list string;
  pv_bus : option (list Js.float64);
  gpu_served : option (list Js.float64);
  gpu_req : option (list Js.float64);
  batt_bus : option (list Js.float64);
  soc : option (list Js.float64)
}.

Section Traces.
Variable data : TimeseriesData.t.
Variable range : option (Z * Z).

Definition getColumn (name : string) : option (list Js.value) :=
  let idx := indexOf name (TimeseriesData.columns data) in
  if (idx =? -1)%Z then None
  else Some (map (fun row => at_index row idx) (TimeseriesData.data data)).

Definition startIdx : Z :=
  match range with
  | Some (a, _) => a
  | None => 0%Z
  end.

Definition endIdx : Z :=
  match range with
  | Some (_, b) => b
  | None => Z.of_nat (length (TimeseriesData.index data))
  end.

Definition filteredTimestamps : list string :=
  match range with
  | Some _ => slice startIdx endIdx (TimeseriesData.index data)
  | None => TimeseriesData.index data
  end.

(** [arr ? arr.slice(startIdx, endIdx) : null] *)
Definition sliceData (arr : option (list Js.value)) : option (list Js.value) :=
  match arr with
  | Some a => Some (slice startIdx endIdx a)
  | None => None
  end.

(** [sliceData(getColumn(name))?.map(f)] *)
Definition column_trace (name : string) (f : Js.value -> Js.float64)
    : option (list Js.float64) :=
  match sliceData (getColumn name) with
  | Some a => Some (map f a)
  | None => None
  end.

Definition traces : Traces :=
  {| timestamps := filteredTimestamps;
     pv_bus := column_trace "P_pv_bus_w" (fun v => div v 1000);
     gpu_served := column_trace "P_gpu_served_w" (fun v => div v 1000);
     gpu_req := column_trace "P_gpu_req_w" (fun v => div v 1000);
     batt_bus := column_trace "P_batt_bus_w" (fun v => div v 1000);
     soc := column_trace "soc" (fun v => mul v 100) |}.

(** [traces.pv_bus || []], what a chart is given. *)
Definition plotted (t : option (list Js.float64)) : list Js.float64 :=
  default [] t.

End Traces.

Section WinterWindow.
(** [new Date(s)] followed by [getMonth() === 0 && getDate() === 15]:
    the test depends on the browser's time zone and date parser, and is
    taken as given. *)
Variable isMidJanuary : string -> bool.

Definition windowDays : Z := 10.
Definition stepsPerDay : Z := 48.
Definition windowSteps : Z := windowDays * stepsPerDay.

(** The [for] loop from index [i] on: the start of the window around the
    first mid-January timestamp, or the initial 0 when there is none. *)
Fixpoint scan (i : Z) (index : list string) : Z :=
  match index with
  | [] => 0%Z
  | s :: rest =>
      if isMidJanuary s then Z.max 0 (i - windowSteps / 2)
      else scan (i + 1)%Z rest
  end.

(** The range [selectWinterWindow] stores. *)
Definition selectWinterWindow (data : TimeseriesData.t) : Z * Z :=
  let startIdx := scan 0%Z (TimeseriesData.index data) in
  (startIdx,
   Z.min (startIdx + windowSteps)
     (Z.of_nat (length (TimeseriesData.index data)))).

End WinterWindow.

(** [resetRange] *)
Definition resetRange : option (Z * Z) := None.

(** The five series with the column each is read from. *)
Definition series (t : Traces) : list (string * option (list Js.float64)) :=
  [ ("P_pv_bus_w", pv_bus t);
    ("P_gpu_served_w", gpu_served t);
    ("P_gpu_req_w", gpu_req t);
    ("P_batt_bus_w", batt_bus t);
    ("soc", soc t) ].

(** The table is rectangular: one data row per timestamp. *)
Definition row_per_timestamp (data : TimeseriesData.t) : Prop :=
  length (TimeseriesData.data data) = length (TimeseriesData.index data).

(** *** A small table used by the examples: four half-hour steps *)

Definition sample : TimeseriesData.t :=
  TimeseriesData.mk
    ["2021-01-14T23:30"; "2021-01-15T00:00"; "2021-01-15T00:30"; "2021-01-15T01:00"]
    ["P_pv_bus_w"; "soc"; "P_gpu_served_w"]
    [ [0%Q; 0.5%Q; 80%Q];
      [0%Q; 0.48%Q; 80%Q];
      [1500%Q; 0.46%Q; 700%Q];
      [2500%Q; 0.5%Q; 700%Q] ].

(** A stand-in for the date test on timestamps written as in [sample]:
    characters 5 to 9 are ["01-15"]. *)
Definition iso_mid_january (s : string) : bool :=
  String.eqb (String.substring 5 5 s) "01-15".

End TimeseriesTab.

(** ** components/SweepTab.tsx: rows and grid points *)

Module SweepRows.

(** Two rows sit at the same point of the sweep. *)
Definition same_point (r r' : gmap string Q) : bool :=
  Js.strict_eq (r !! "pv_kw") (r' !! "pv_kw")
  && Js.strict_eq (r !! "batt_kwh") (r' !! "batt_kwh").

(** No two rows sit at the same point. *)
Fixpoint distinct_points (rows : list (gmap string Q)) : bool :=
  match rows with
  | [] => true
  | r :: rows' =>
      forallb (fun r' => negb (same_point r r')) rows' && distinct_points rows'
  end.

(** One [<tr>] of the results table: the numbers its cells print,
    before [toFixed]. *)
Record TableRow : Type := mkTableRow {
  pv : Js.value;
  batt : Js.value;
  utilization : Js.float64;
  total_flops : Js.float64;
  hours_unserved : Q;
  curtailment : Js.float64
}.

Definition table_row (row : gmap string Q) : TableRow :=
  {| pv := row !! "pv_kw";
     batt := row !! "batt_kwh";
     utilization := Js.mul (Js.or_zero (row !! "utilization")) 100;
     total_flops := Js.div (Js.or_zero (row !! "total_flops")) 1e15;
     hours_unserved := Js.or_zero (row !! "hours_unserved");
     curtailment := Js.mul (Js.or_zero (row !! "curtailment_fraction")) 100 |}.

(** [data.data.map((row, i) => <tr key={i}>...</tr>)] *)
Definition table (data : SweepData.t) : list TableRow :=
  map table_row (SweepData.data data).

(** The dense sweep of the examples with its rows in grid order. *)
Definition dense_sweep_in_order : SweepData.t :=
  SweepData.mk ["pv_kw"; "batt_kwh"; "utilization"; "total_flops"]
    [SweepTab.row_1_2; SweepTab.row_2_2; SweepTab.row_1_4; SweepTab.row_2_4].

End SweepRows.

(** ** components/SummaryTab.tsx *)

Module SummaryTab.

Section Format.
(** [Number.prototype.toFixed], a builtin: the digits it prints are not
    modelled. *)
Variable toFixed : Q -> nat -> string.

(** [formatNumber(value, decimals = 2)] *)
Definition formatNumber (value : Q) (decimals : nat) : string :=
  if Qle_bool 1e12 (Qabs value) then toFixed (value / 1e12) decimals +:+ " T"
  else if Qle_bool 1e9 (Qabs value) then toFixed (value / 1e9) decimals +:+ " G"
  else if Qle_bool 1e6 (Qabs value) then toFixed (value / 1e6) decimals +:+ " M"
  else if Qle_bool 1e3 (Qabs value) then toFixed (value / 1e3) decimals +:+ " k"
  else toFixed value decimals.

Definition formatFlops (value : Q) : string :=
  if Qle_bool 1e18 value then toFixed (value / 1e18) 2 +:+ " EFLOPs"
  else if Qle_bool 1e15 value then toFixed (value / 1e15) 2 +:+ " PFLOPs"
  else if Qle_bool 1e12 value then toFixed (value / 1e12) 2 +:+ " TFLOPs"
  else formatNumber value 2 +:+ " FLOPs".

Record Card : Type := mkCard {
  label : string;
  value : string;
  description : string
}.

(** The [cards] array. *)
Definition cards (metrics : gmap string Q) : list Card :=
  [ {| label := "Total FLOPs";
       value := formatFlops (Js.or_zero (metrics !! "total_flops"));
       description := "Total floating point operations" |};
    {| label := "GPU Utilization";
       value := toFixed (Js.or_zero (metrics !! "utilization") * 100) 1 +:+ "%";
       description := "Average GPU utilization" |};
    {| label := "Unserved Hours";
       value := toFixed (Js.or_zero (metrics !! "hours_unserved")) 1 +:+ " hrs";
       description := "Hours with unmet demand" |};
    {| label := "Curtailment";
       value := toFixed (Js.or_zero (metrics !! "curtailment_fraction") * 100) 1 +:+ "%";
       description := "PV energy curtailed" |};
    {| label := "PV Energy";
       value := toFixed (Js.or_zero (metrics !! "total_pv_energy_kwh")) 1 +:+ " kWh";
       description := "Total PV energy generated" |};
    {| label := "GPU Energy";
       value := toFixed (Js.or_zero (metrics !! "total_gpu_energy_kwh")) 1 +:+ " kWh";
       description := "Total GPU energy consumed" |};
    {| label := "Peak PV";
       value := toFixed (Js.or_zero (metrics !! "peak_pv_kw")) 2 +:+ " kW";
       description := "Peak PV output" |};
    {| label := "Battery Cycles";
       value := toFixed (Js.or_zero (metrics !! "battery_equivalent_cycles")) 1;
       description := "Equivalent full cycles" |} ].

End Format.

(** The keys the cards read. *)
Definition card_keys : list string :=
  [ "total_flops"; "utilization"; "hours_unserved"; "curtailment_fraction";
    "total_pv_energy_kwh"; "total_gpu_energy_kwh"; "peak_pv_kw";
    "battery_equivalent_cycles" ].

(** [metrics.key === 0] *)
Definition is_zero (v : Js.value) : bool := Js.strict_eq v (Some 0%Q).

(** The double that the literal [0.1] denotes. *)
Definition one_tenth : Q := 3602879701896397 # 36028797018963968.

(** [(metrics.hours_unserved || 0) > metrics.total_hours * 0.1], the
    product in binary64: with [total_hours] missing the product is [NaN]
    and the test is false. *)
Definition high_unserved (metrics : gmap string Q) : bool :=
  match metrics !! "total_hours" with
  | Some total_hours =>
      Js.gt (Js.or_zero (metrics !! "hours_unserved"))
        (Js.mul total_hours one_tenth)
  | None => false
  end.

(** The three warnings, in the order they are rendered. *)
Definition warnings (metrics : gmap string Q) : list string :=
  (if is_zero (metrics !! "battery_capacity_kwh")
   then ["Battery capacity is 0 - no overnight compute possible"] else [])
  ++ (if is_zero (metrics !! "pv_nameplate_kw")
      then ["PV size is 0 - no solar energy available"] else [])
  ++ (if high_unserved metrics
      then ["High unserved hours - consider larger PV or battery"] else []).


(** A stand-in for [toFixed] in the examples: the integer part only. *)
Definition integer_part (q : Q) (decimals : nat) : string :=
  pretty (Qnum q / Z.pos (Qden q))%Z.

End SummaryTab.

(** ** components/ConfigForm.tsx: the two comma-separated inputs *)

Module ConfigForm.

(** [text.split(',')]: the pieces between the commas; there is always at
    least one piece. *)
Fixpoint split_comma (text : string) : list string :=
  match text with
  | EmptyString => [""]
  | String c rest =>
      if Ascii.eqb c ","%char then "" :: split_comma rest
      else
        match split_comma rest with
        | piece :: pieces => String c piece :: pieces
        | [] => [String c ""]
        end
  end.

(** [pieces.join(', ')] *)
Fixpoint join (pieces : list string) : string :=
  match pieces with
  | [] => ""
  | [piece] => piece
  | piece :: rest => piece +:+ ", " +:+ join rest
  end.

Fixpoint count_commas (text : string) : nat :=
  match text with
  | EmptyString => 0
  | String c rest => (if Ascii.eqb c ","%char then 1 else 0) + count_commas rest
  end.

Section Lists.
(** The builtins [parseFloat], [String.prototype.trim] and the conversion
    of a number to text are taken as given, over any type of numbers. *)
Variable number : Type.
Variable parseFloat : string -> number.
Variable trim : string -> string.
Variable toString : number -> string.

(** [e.target.value.split(',').map((s) => parseFloat(s.trim()))] *)
Definition parse_list (text : string) : list number :=
  map (fun s => parseFloat (trim s)) (split_comma text).

(** [list.join(', ')], the [value] of the input. *)
Definition show_list (l : list number) : string :=
  join (map toString l).

End Lists.

End ConfigForm.

(** * Properties of the sweep pivot *)

Module PivotProperties.
Import SweepTab.

(** ** Equality and order of axis values *)

Lemma strict_eq_spec (a b : Js.value) :
  Js.strict_eq a b = true <-> Js.equiv a b.
Proof.
  destruct a as [p|], b as [q|]; simpl; try (split; [discriminate|tauto]).
  - apply Qeq_bool_iff.
  - tauto.
Qed.

Lemma strict_eq_false (a b : Js.value) :
  Js.strict_eq a b = false <-> ~ Js.equiv a b.
Proof.
  rewrite <- strict_eq_spec. destruct (Js.strict_eq a b); split; congruence.
Qed.

Lemma equiv_refl (a : Js.value) : Js.equiv a a.
Proof. destruct a; simpl; [reflexivity|exact I]. Qed.

Lemma equiv_sym (a b : Js.value) : Js.equiv a b -> Js.equiv b a.
Proof. destruct a, b; simpl; try tauto. intros H. by symmetry. Qed.

Lemma equiv_trans (a b c : Js.value) :
  Js.equiv a b -> Js.equiv b c -> Js.equiv a c.
Proof.
  destruct a, b, c; simpl; try tauto. intros H1 H2. by rewrite H1.
Qed.

Lemma lt_trans (a b c : Js.value) : Js.lt a b -> Js.lt b c -> Js.lt a c.
Proof. destruct a, b, c; simpl; try tauto. apply Qlt_trans. Qed.

Lemma lt_not_equiv (a b : Js.value) : Js.lt a b -> ~ Js.equiv a b.
Proof.
  destruct a, b; simpl; try tauto. intros H1 H2. rewrite H2 in H1.
  by apply Qlt_irrefl in H1.
Qed.

(** What the sort's test [SortCompare x y <= 0] decides. *)
Lemma SortCompare_le (a b : Js.value) :
  Qle_bool (Js.SortCompare a b) 0 = true <-> Js.lt a b \/ Js.equiv a b.
Proof.
  rewrite Qle_bool_iff. destruct a as [p|], b as [q|]; simpl.
  - unfold Js.comparefn. split.
    + intros H. destruct (Qlt_le_dec p q) as [Hlt|Hle]; [by left|right].
      apply Qle_antisym; [|done]. lra.
    + intros [H|H]; lra.
  - split; [tauto|]. intros _. lra.
  - split; [|tauto]. intros H. lra.
  - split; [tauto|]. intros _. lra.
Qed.

Lemma SortCompare_gt (a b : Js.value) :
  Qle_bool (Js.SortCompare a b) 0 = false -> Js.lt b a.
Proof.
  intros H. assert (~ (Js.SortCompare a b <= 0)%Q) as Hn.
  { rewrite <- Qle_bool_iff. congruence. }
  destruct a as [p|], b as [q|]; simpl in *.
  - unfold Js.comparefn in Hn. lra.
  - lra.
  - exact I.
  - lra.
Qed.

Lemma equiv_strict_eq_r (c a b : Js.value) :
  Js.equiv a b -> Js.strict_eq c a = Js.strict_eq c b.
Proof.
  intros H. destruct (Js.strict_eq c b) eqn:E.
  - apply strict_eq_spec. apply strict_eq_spec in E.
    eapply equiv_trans; [done|by apply equiv_sym].
  - apply strict_eq_false. apply strict_eq_false in E. intros H'.
    apply E. by eapply equiv_trans.
Qed.

(** ** [[...new Set(xs)]] *)

Lemma existsb_same_value (v : Js.value) (s : list Js.value) :
  existsb (Js.same_value_zero v) s = true <->
  exists w, In w s /\ Js.equiv v w.
Proof.
  rewrite existsb_exists. unfold Js.same_value_zero.
  split; intros (w & Hw & H); exists w; split; try done; by apply strict_eq_spec.
Qed.

Lemma distinct_snoc (s : list Js.value) (v : Js.value) :
  Js.distinct s ->
  (forall w, In w s -> ~ Js.equiv v w) ->
  Js.distinct (s ++ [v]).
Proof.
  unfold Js.distinct. induction 1 as [|a s Hs IH Ha]; intros Hv; simpl.
  - repeat constructor.
  - constructor.
    + apply IH. intros w Hw. apply Hv. by right.
    + apply Forall_app. split; [done|]. constructor; [|constructor].
      intros H. apply (Hv a); [by left|by apply equiv_sym].
Qed.

Lemma set_add_spec (s : list Js.value) (v : Js.value) :
  Js.distinct s ->
  Js.distinct (Js.set_add s v) /\
  (forall w, In w (Js.set_add s v) -> In w s \/ w = v) /\
  (forall w, In w s -> In w (Js.set_add s v)) /\
  (exists w, In w (Js.set_add s v) /\ Js.equiv w v).
Proof.
  intros Hs. unfold Js.set_add.
  destruct (existsb (Js.same_value_zero v) s) eqn:E.
  - apply existsb_same_value in E as (w & Hw & Hvw).
    split; [done|]. split; [by left|]. split; [done|].
    exists w. split; [done|by apply equiv_sym].
  - split; [|split; [|split]].
    + apply distinct_snoc; [done|]. intros w Hw Hvw.
      assert (existsb (Js.same_value_zero v) s = true) as E'.
      { apply existsb_same_value. eauto. }
      congruence.
    + intros w [Hw|[<-|[]]]%in_app_or; tauto.
    + intros w Hw. apply in_or_app. by left.
    + exists v. split; [|apply equiv_refl]. apply in_or_app. right. by left.
Qed.

Lemma fold_set_add_spec (xs : list Js.value) :
  forall acc : list Js.value,
    Js.distinct acc ->
    Js.distinct (fold_left Js.set_add xs acc) /\
    (forall w, In w (fold_left Js.set_add xs acc) -> In w acc \/ In w xs) /\
    (forall w, In w acc -> In w (fold_left Js.set_add xs acc)) /\
    (forall x, In x xs ->
       exists w, In w (fold_left Js.set_add xs acc) /\ Js.equiv w x).
Proof.
  induction xs as [|x xs IH]; intros acc Hacc; simpl.
  - split; [done|]. split; [by left|]. split; [done|]. intros x [].
  - destruct (set_add_spec acc x Hacc) as (Hd & Hin & Hkeep & (w0 & Hw0 & Heq0)).
    destruct (IH _ Hd) as (Hd' & Hin' & Hkeep' & Hall').
    split; [|split; [|split]].
    + done.
    + intros w Hw. destruct (Hin' w Hw) as [H|H]; [|tauto].
      destruct (Hin w H) as [H'|H']; [by left|]. right. by left.
    + intros w Hw. apply Hkeep', Hkeep, Hw.
    + intros y [<-|Hy].
      * exists w0. split; [by apply Hkeep'|done].
      * by apply Hall'.
Qed.

Lemma spread_set_spec (xs : list Js.value) :
  Js.distinct (Js.spread_set xs) /\
  (forall w, In w (Js.spread_set xs) -> In w xs) /\
  (forall x, In x xs -> exists w, In w (Js.spread_set xs) /\ Js.equiv w x).
Proof.
  destruct (fold_set_add_spec xs []) as (Hd & Hin & _ & Hall).
  { constructor. }
  split; [done|]. split; [|done].
  intros w Hw. destruct (Hin w Hw) as [[]|H]. done.
Qed.

(** ** [sort((a, b) => a - b)] *)

Lemma sort_insert_In (x : Js.value) (l : list Js.value) (z : Js.value) :
  In z (Js.sort_insert x l) <-> z = x \/ In z l.
Proof.
  induction l as [|y l IH]; simpl.
  - split; intros [H|H]; auto.
  - destruct (Qle_bool _ _); simpl; [|rewrite IH]; intuition congruence.
Qed.

Lemma sort_In (l : list Js.value) (z : Js.value) :
  In z (Js.sort l) <-> In z l.
Proof.
  unfold Js.sort. induction l as [|x l IH]; simpl; [tauto|].
  rewrite sort_insert_In, IH. intuition congruence.
Qed.

Lemma sort_insert_sorted (x : Js.value) (l : list Js.value) :
  StronglySorted Js.lt l ->
  (forall y, In y l -> ~ Js.equiv x y) ->
  StronglySorted Js.lt (Js.sort_insert x l).
Proof.
  induction 1 as [|y l Hl IH Hy]; intros Hx; simpl.
  - repeat constructor.
  - destruct (Qle_bool (Js.SortCompare x y) 0) eqn:E.
    + apply SortCompare_le in E as [Hlt|Heq].
      * constructor; [by constructor|]. constructor; [done|].
        eapply Forall_impl; [exact Hy|]. intros z Hz. by eapply lt_trans.
      * exfalso. apply (Hx y); [by left|done].
    + apply SortCompare_gt in E. constructor.
      * apply IH. intros z Hz. apply Hx. by right.
      * apply List.Forall_forall. intros z [->|Hz]%sort_insert_In; [done|].
        rewrite List.Forall_forall in Hy. by apply Hy.
Qed.

Lemma sort_sorted (l : list Js.value) :
  Js.distinct l -> StronglySorted Js.lt (Js.sort l).
Proof.
  unfold Js.distinct, Js.sort. induction 1 as [|x l Hl IH Hx]; simpl.
  - constructor.
  - apply sort_insert_sorted; [done|]. intros y Hy.
    apply (proj1 (sort_In l y)) in Hy.
    rewrite List.Forall_forall in Hx. by apply Hx.
Qed.

(** Sorted and free of duplicates, with exactly the values of [xs]. *)
Lemma axis_spec (xs : list Js.value) :
  StronglySorted Js.lt (Js.sort (Js.spread_set xs)) /\
  (forall v, In v (Js.sort (Js.spread_set xs)) -> In v xs) /\
  (forall x, In x xs ->
     exists v, In v (Js.sort (Js.spread_set xs)) /\ Js.equiv v x).
Proof.
  destruct (spread_set_spec xs) as (Hd & Hin & Hall).
  split; [|split].
  - by apply sort_sorted.
  - intros v Hv. apply Hin. by apply (proj1 (sort_In _ _)).
  - intros x Hx. destruct (Hall x Hx) as (w & Hw & Heq).
    exists w. split; [by apply (proj2 (sort_In _ _))|done].
Qed.

(** ** The two loops *)

Lemma fold_left_ext {A B : Type} (f g : A -> B -> A) (l : list B) :
  (forall a b, f a b = g a b) ->
  forall a, fold_left f l a = fold_left g l a.
Proof.
  intros Hfg. induction l as [|b l IH]; intros a; simpl; [done|].
  by rewrite Hfg, IH.
Qed.

(** A loop that pushes one element on each of two arrays per round
    builds the two maps of the list it runs over. *)
Lemma fold_left_push2 {A B C : Type} (f : A -> B) (g : A -> C) (l : list A) :
  forall (u : list B) (v : list C),
    fold_left (fun acc a => (fst acc ++ [f a], snd acc ++ [g a])) l (u, v)
    = (u ++ map f l, v ++ map g l).
Proof.
  induction l as [|a l IH]; intros u v; simpl.
  - by rewrite !app_nil_r.
  - by rewrite IH, <- !app_assoc.
Qed.

Lemma inner_loop_eq (data : SweepData.t) (batt : Js.value) :
  inner_loop data batt
  = (map (fun pv => utilizationCell (find_row data pv batt)) (pvSizes data),
     map (fun pv => flopsCell (find_row data pv batt)) (pvSizes data)).
Proof.
  unfold inner_loop.
  rewrite (fold_left_ext _
             (fun acc pv =>
                (fst acc ++ [utilizationCell (find_row data pv batt)],
                 snd acc ++ [flopsCell (find_row data pv batt)]))).
  - by rewrite fold_left_push2.
  - by intros [u f] pv.
Qed.

Lemma outer_loop_eq (data : SweepData.t) :
  outer_loop data
  = (map
       (fun batt =>
          map (fun pv => utilizationCell (find_row data pv batt)) (pvSizes data))
       (battSizes data),
     map
       (fun batt =>
          map (fun pv => flopsCell (find_row data pv batt)) (pvSizes data))
       (battSizes data)).
Proof.
  unfold outer_loop.
  rewrite (fold_left_ext _
             (fun acc batt =>
                (fst acc ++
                   [map (fun pv => utilizationCell (find_row data pv batt))
                      (pvSizes data)],
                 snd acc ++
                   [map (fun pv => flopsCell (find_row data pv batt))
                      (pvSizes data)]))).
  - by rewrite fold_left_push2.
  - intros [u f] batt. by rewrite inner_loop_eq.
Qed.

Lemma cell_map {A B C : Type} (h : B -> A -> C) (ys : list B) (xs : list A)
    (i j : nat) (y : B) (x : A) :
  nth_error ys i = Some y ->
  nth_error xs j = Some x ->
  cell (map (fun y => map (fun x => h y x) xs) ys) i j = Some (h y x).
Proof.
  intros Hy Hx. unfold cell. rewrite nth_error_map, Hy. simpl.
  by rewrite nth_error_map, Hx.
Qed.

Lemma matrix_cells (data : SweepData.t) (i j : nat) (x y : Js.value) :
  nth_error (battSizes data) i = Some y ->
  nth_error (pvSizes data) j = Some x ->
  cell (utilizationMatrix data) i j = Some (utilizationCell (find_row data x y)) /\
  cell (flopsMatrix data) i j = Some (flopsCell (find_row data x y)).
Proof.
  intros Hy Hx. unfold utilizationMatrix, flopsMatrix.
  rewrite outer_loop_eq. simpl. split.
  - by apply (cell_map (fun y x => utilizationCell (find_row data x y))).
  - by apply (cell_map (fun y x => flopsCell (find_row data x y))).
Qed.

Lemma matrix_shape (data : SweepData.t) :
  length (utilizationMatrix data) = length (battSizes data) /\
  length (flopsMatrix data) = length (battSizes data) /\
  Forall (fun row => length row = length (pvSizes data)) (utilizationMatrix data) /\
  Forall (fun row => length row = length (pvSizes data)) (flopsMatrix data).
Proof.
  unfold utilizationMatrix, flopsMatrix. rewrite outer_loop_eq. simpl.
  rewrite !length_map. split; [done|]. split; [done|].
  split; apply List.Forall_forall; intros row (batt & <- & _)%in_map_iff;
    by rewrite length_map.
Qed.

Lemma cell_scale {A B : Type} (h : A -> B) (M : list (list A)) (i j : nat)
    (q : A) :
  cell M i j = Some q ->
  cell (map (fun row => map h row) M) i j = Some (h q).
Proof.
  unfold cell. rewrite nth_error_map.
  destruct (nth_error M i) as [row|]; simpl; [|done].
  rewrite nth_error_map. by intros ->.
Qed.

(** ** [find] *)

Lemma matches_spec (x y : Js.value) (r : gmap string Q) :
  Js.strict_eq (r !! "pv_kw") x && Js.strict_eq (r !! "batt_kwh") y = true
  <-> matches x y r.
Proof. unfold matches. by rewrite andb_true_iff, !strict_eq_spec. Qed.

Lemma find_first {A : Type} (p : A -> bool) (pre post : list A) (a : A) :
  Forall (fun b => p b = false) pre ->
  p a = true ->
  List.find p (pre ++ a :: post) = Some a.
Proof.
  induction 1 as [|b pre Hb _ IH]; intros Ha; simpl.
  - by rewrite Ha.
  - rewrite Hb. by apply IH.
Qed.

Lemma find_row_first (data : SweepData.t) (x y : Js.value) (r : gmap string Q) :
  first_match (SweepData.data data) x y r -> find_row data x y = Some r.
Proof.
  intros (pre & post & Heq & Hr & Hpre). unfold find_row. rewrite Heq.
  apply find_first.
  - eapply Forall_impl; [exact Hpre|]. intros r' Hr'. simpl in Hr'.
    destruct (_ && _) eqn:E; [|done]. by apply matches_spec in E.
  - by apply matches_spec.
Qed.

Lemma find_row_none (data : SweepData.t) (x y : Js.value) :
  (forall r, In r (SweepData.data data) -> ~ matches x y r) ->
  find_row data x y = None.
Proof.
  intros H. unfold find_row.
  destruct (List.find _ _) as [r|] eqn:E; [|done].
  apply find_some in E as [Hin Hr]. apply matches_spec in Hr.
  by destruct (H r Hin).
Qed.

Lemma or_zero_eq (v : Js.value) : (Js.or_zero v == field_or_zero v)%Q.
Proof.
  destruct v as [q|]; simpl; [|reflexivity].
  destruct (Qeq_bool q 0) eqn:E; [|reflexivity].
  apply Qeq_bool_iff in E. by symmetry.
Qed.

Lemma find_ext {A : Type} (p q : A -> bool) (l : list A) :
  (forall a, p a = q a) -> List.find p l = List.find q l.
Proof.
  intros Hpq. induction l as [|a l IH]; simpl; [done|].
  by rewrite Hpq, IH.
Qed.

(** When exactly one element passes the test, [find] returns it. *)
Lemma find_unique {A : Type} (p : A -> bool) (l : list A) (a : A) :
  length (List.filter p l) = 1 ->
  In a l ->
  p a = true ->
  List.find p l = Some a.
Proof.
  induction l as [|b l IH]; simpl; intros Hlen Hin Ha; [done|].
  destruct (p b) eqn:Hb; simpl in Hlen.
  - destruct Hin as [->|Hin]; [done|].
    assert (In a (List.filter p l)) as Hf by (apply filter_In; done).
    destruct (List.filter p l); [done|discriminate].
  - destruct Hin as [->|Hin]; [congruence|]. by apply IH.
Qed.

Lemma axis_index (xs : list Js.value) (v : Q) :
  (exists w, In w xs /\ Js.equiv w (Some v)) ->
  exists j v',
    nth_error (Js.sort (Js.spread_set xs)) j = Some (Some v') /\ (v' == v)%Q.
Proof.
  intros (w & Hw & Hwv).
  destruct (axis_spec xs) as (_ & _ & Hall).
  destruct (Hall w Hw) as (a & Ha & Haw).
  apply In_nth_error in Ha as [j Hj].
  pose proof (equiv_trans _ _ _ Haw Hwv) as Hav.
  destruct a as [v'|]; [|done]. by exists j, v'.
Qed.

(** ** binary64 results *)

(** Rounding at work: a third is not a double; a tie goes to the even
    significand; the largest double is finite and the next binade is
    not; half of the smallest subnormal goes to zero and anything above
    it to the smallest subnormal; the double of [0.1] times 3 prints as
    0.30000000000000004. *)
Lemma round64_examples :
  Js.round64 (1 # 3) = Js.Finite (6004799503160661 # 18014398509481984) /\
  Js.round64 (inject_Z (2 ^ 53 + 1)) = Js.Finite (inject_Z (2 ^ 53)) /\
  Js.round64 (inject_Z (2 ^ 53 + 3)) = Js.Finite (inject_Z (2 ^ 53 + 4)) /\
  Js.round64 (inject_Z ((2 ^ 53 - 1) * 2 ^ 971))
  = Js.Finite (inject_Z ((2 ^ 53 - 1) * 2 ^ 971)) /\
  Js.round64 (inject_Z (2 ^ 1024)) = Js.PosInfinity /\
  Js.round64 (- inject_Z (2 ^ 1024)) = Js.NegInfinity /\
  Js.round64 (1 # 2 ^ 1075) = Js.Finite 0 /\
  Js.round64 (3 # 2 ^ 1076) = Js.Finite (1 # 2 ^ 1074) /\
  Js.round64 0.1 = Js.Finite (3602879701896397 # 36028797018963968) /\
  Js.mul (3602879701896397 # 36028797018963968) 3
  = Js.Finite (1351079888211149 # 4503599627370496) /\
  Js.div 1 0 = Js.PosInfinity /\
  Js.div 0 0 = Js.NaN.
Proof. by vm_compute. Qed.

(** ** The claims *)

(** C1, as the code has it.  For every row set: [pvSizes] and
    [battSizes] are sorted ascending with no value twice ([undefined],
    read off a row that lacks the field, counts as one more value and
    goes last), and hold exactly the values the rows carry; they are the
    axes of both heatmaps.  Both heatmap matrices have one row per
    [battSizes] entry and one column per [pvSizes] entry.  The cell for
    the [i]-th battery size and the [j]-th PV size is computed from the
    first row at that point: in the utilization heatmap it is the
    binary64 product of the row's [utilization] and 100, in the FLOPs
    heatmap the binary64 quotient of the row's [total_flops] by 1e15,
    a field the row lacks counting as 0; the local [flopsMatrix] holds
    [total_flops] itself.  A point without a row gives 0 in all three.
    An empty row set gives empty axes and empty matrices. *)
Theorem pivot_axes_and_cells (data : SweepData.t) :
  (StronglySorted Js.lt (pvSizes data) /\
   (forall v, In v (pvSizes data) ->
      exists r, In r (SweepData.data data) /\ r !! "pv_kw" = v) /\
   (forall r, In r (SweepData.data data) ->
      exists v, In v (pvSizes data) /\ Js.equiv v (r !! "pv_kw"))) /\
  (StronglySorted Js.lt (battSizes data) /\
   (forall v, In v (battSizes data) ->
      exists r, In r (SweepData.data data) /\ r !! "batt_kwh" = v) /\
   (forall r, In r (SweepData.data data) ->
      exists v, In v (battSizes data) /\ Js.equiv v (r !! "batt_kwh"))) /\
  (x (utilizationHeatmap data) = pvSizes data /\
   y (utilizationHeatmap data) = battSizes data /\
   x (flopsHeatmap data) = pvSizes data /\
   y (flopsHeatmap data) = battSizes data) /\
  (length (z (utilizationHeatmap data)) = length (battSizes data) /\
   length (z (flopsHeatmap data)) = length (battSizes data) /\
   Forall (fun row => length row = length (pvSizes data))
     (z (utilizationHeatmap data)) /\
   Forall (fun row => length row = length (pvSizes data))
     (z (flopsHeatmap data))) /\
  (forall i j x y,
     nth_error (battSizes data) i = Some y ->
     nth_error (pvSizes data) j = Some x ->
     exists u f m,
       cell (z (utilizationHeatmap data)) i j = Some u /\
       cell (z (flopsHeatmap data)) i j = Some f /\
       cell (flopsMatrix data) i j = Some m /\
       (forall r, first_match (SweepData.data data) x y r ->
          u = Js.mul (Js.or_zero (r !! "utilization")) 100 /\
          f = Js.div (Js.or_zero (r !! "total_flops")) 1e15 /\
          m = Js.or_zero (r !! "total_flops") /\
          (Js.or_zero (r !! "utilization")
           == field_or_zero (r !! "utilization"))%Q /\
          (m == field_or_zero (r !! "total_flops"))%Q) /\
       ((forall r, In r (SweepData.data data) -> ~ matches x y r) ->
          u = Js.Finite 0 /\ f = Js.Finite 0 /\ m = 0%Q)) /\
  (SweepData.data data = [] ->
   pvSizes data = [] /\ battSizes data = [] /\
   z (utilizationHeatmap data) = [] /\ z (flopsHeatmap data) = [] /\
   flopsMatrix data = []).
Proof.
  split; [|split; [|split; [|split; [|split]]]].
  - unfold pvSizes.
    destruct (axis_spec (map (fun r : gmap string Q => r !! "pv_kw")
                           (SweepData.data data))) as (Hs & Hin & Hall).
    split; [done|]. split.
    + intros v Hv. apply Hin, in_map_iff in Hv as (r & <- & Hr). by exists r.
    + intros r Hr. apply Hall, in_map_iff. by exists r.
  - unfold battSizes.
    destruct (axis_spec (map (fun r : gmap string Q => r !! "batt_kwh")
                           (SweepData.data data))) as (Hs & Hin & Hall).
    split; [done|]. split.
    + intros v Hv. apply Hin, in_map_iff in Hv as (r & <- & Hr). by exists r.
    + intros r Hr. apply Hall, in_map_iff. by exists r.
  - done.
  - destruct (matrix_shape data) as (Hu & Hf & Hur & Hfr). simpl.
    rewrite length_map. split; [done|]. split; [done|]. split; [done|].
    apply List.Forall_forall. intros row (row' & <- & Hrow)%in_map_iff.
    rewrite length_map. rewrite List.Forall_forall in Hfr. by apply Hfr.
  - intros i j x0 y0 Hy Hx.
    destruct (matrix_cells data i j x0 y0 Hy Hx) as [Hu Hf].
    eexists _, _, _. split; [exact Hu|].
    split; [exact (cell_scale (fun v => Js.div v 1e15) _ _ _ _ Hf)|].
    split; [exact Hf|]. split.
    + intros r Hr. rewrite (find_row_first _ _ _ _ Hr). simpl.
      split; [done|]. split; [done|]. split; [done|].
      split; apply or_zero_eq.
    + intros Hnone. by rewrite (find_row_none _ _ _ Hnone).
  - intros Hrows.
    unfold flopsHeatmap, utilizationHeatmap, utilizationMatrix, flopsMatrix,
      outer_loop, battSizes, pvSizes. simpl. by rewrite Hrows.
Qed.

(** The sparse sweep at battery size 4 and PV size 1: the first row
    there is [row_1_4], which has no [utilization]. *)
Lemma pivot_axes_and_cells_witness :
  exists u f m,
    cell (z (utilizationHeatmap sparse_sweep)) 1 0 = Some u /\
    cell (z (flopsHeatmap sparse_sweep)) 1 0 = Some f /\
    cell (flopsMatrix sparse_sweep) 1 0 = Some m /\
    u = Js.mul 0 100 /\ f = Js.div 30 1e15 /\ m = 30%Q.
Proof.
  destruct (pivot_axes_and_cells sparse_sweep) as (_ & _ & _ & _ & Hcells & _).
  destruct (Hcells 1%nat 0%nat (Some 1%Q) (Some 4%Q) eq_refl eq_refl)
    as (u & f & m & Hu & Hf & Hm & Hfirst & _).
  exists u, f, m. split; [exact Hu|]. split; [exact Hf|]. split; [exact Hm|].
  destruct (Hfirst row_1_4) as (H1 & H2 & H3 & _).
  - exists [row_1_2; row_2_2], [].
    split; [reflexivity|]. split; [by vm_compute|].
    repeat constructor; intros [H1 H2]; vm_compute in H1, H2; discriminate.
  - split; [exact H1|]. split; [exact H2|exact H3].
Defined.

(** C1 as stated fails on both heatmaps: the first row at PV size 1 and
    battery size 2 carries [utilization = 0.5] and [total_flops = 10];
    the utilization cell for that point holds 50, and the FLOPs cell a
    number below 1. *)
Lemma utilization_cell_is_percent :
  first_match (SweepData.data sparse_sweep) (Some 1%Q) (Some 2%Q) row_1_2 /\
  row_1_2 !! "utilization" = Some 0.5%Q /\
  row_1_2 !! "total_flops" = Some 10%Q /\
  nth_error (battSizes sparse_sweep) 0 = Some (Some 2%Q) /\
  nth_error (pvSizes sparse_sweep) 0 = Some (Some 1%Q) /\
  (exists u,
     cell (z (utilizationHeatmap sparse_sweep)) 0 0 = Some (Js.Finite u) /\
     (u == 50)%Q /\ ~ (u == 0.5)%Q) /\
  (exists f,
     cell (z (flopsHeatmap sparse_sweep)) 0 0 = Some (Js.Finite f) /\
     (f < 1)%Q /\ ~ (f == 10)%Q).
Proof.
  split.
  { exists [], [row_2_2; row_1_4]. split; [reflexivity|].
    split; [by vm_compute|constructor]. }
  split; [reflexivity|]. split; [reflexivity|]. split; [reflexivity|].
  split; [reflexivity|]. split.
  - eexists. split; [by vm_compute|]. split; [by vm_compute|].
    intros H. vm_compute in H. discriminate.
  - eexists. split; [by vm_compute|]. split; [by vm_compute|].
    intros H. vm_compute in H. discriminate.
Qed.

(** C9, as the code has it.  In a fully dense row set, with exactly one
    row per grid point, take any grid point [(x, y)] and the row [r] at
    it.  Then [y] is one of the battery sizes and [x] one of the PV
    sizes, and at their indices the utilization heatmap holds the
    binary64 product of the row's [utilization] and 100, the FLOPs
    heatmap the binary64 quotient of the row's [total_flops] by 1e15,
    and the local [flopsMatrix] the row's [total_flops] itself. *)
Theorem pivot_round_trip
    (data : SweepData.t) (xs ys : list Q) (x y : Q) (r : gmap string Q) :
  dense_grid xs ys (SweepData.data data) = true ->
  In x xs ->
  In y ys ->
  In r (SweepData.data data) ->
  at_point x y r = true ->
  exists i j x' y',
    nth_error (battSizes data) i = Some (Some y') /\ (y' == y)%Q /\
    nth_error (pvSizes data) j = Some (Some x') /\ (x' == x)%Q /\
    cell (z (utilizationHeatmap data)) i j
    = Some (Js.mul (Js.or_zero (r !! "utilization")) 100) /\
    cell (z (flopsHeatmap data)) i j
    = Some (Js.div (Js.or_zero (r !! "total_flops")) 1e15) /\
    cell (flopsMatrix data) i j = Some (Js.or_zero (r !! "total_flops")) /\
    (forall v, r !! "utilization" = Some v ->
       (Js.or_zero (r !! "utilization") == v)%Q) /\
    (forall v, r !! "total_flops" = Some v ->
       (Js.or_zero (r !! "total_flops") == v)%Q).
Proof.
  intros Hdense Hx Hy Hr Hat.
  assert (length (List.filter (at_point x y) (SweepData.data data)) = 1) as Hone.
  { apply andb_true_iff in Hdense as [Hgrid _].
    rewrite forallb_forall in Hgrid. specialize (Hgrid x Hx).
    rewrite forallb_forall in Hgrid. specialize (Hgrid y Hy).
    by apply Nat.eqb_eq in Hgrid. }
  pose proof Hat as Hat'. unfold at_point in Hat'.
  apply andb_true_iff in Hat' as [Hrx Hry].
  apply strict_eq_spec in Hrx, Hry.
  destruct (axis_index (map (fun r : gmap string Q => r !! "pv_kw")
                          (SweepData.data data)) x)
    as (j & x' & Hj & Hx').
  { exists (r !! "pv_kw"). split; [|done]. apply in_map_iff. by exists r. }
  destruct (axis_index (map (fun r : gmap string Q => r !! "batt_kwh")
                          (SweepData.data data)) y)
    as (i & y' & Hi & Hy').
  { exists (r !! "batt_kwh"). split; [|done]. apply in_map_iff. by exists r. }
  fold (pvSizes data) in Hj. fold (battSizes data) in Hi.
  destruct (matrix_cells data i j (Some x') (Some y') Hi Hj) as [Hu Hf].
  assert (find_row data (Some x') (Some y') = Some r) as Hfind.
  { unfold find_row.
    rewrite (find_ext _ (at_point x y)).
    - by apply find_unique.
    - intros a. unfold at_point.
      by rewrite (equiv_strict_eq_r _ (Some x') (Some x)),
                 (equiv_strict_eq_r _ (Some y') (Some y)). }
  rewrite Hfind in Hu, Hf. simpl in Hu, Hf.
  exists i, j, x', y'. split; [done|]. split; [done|]. split; [done|].
  split; [done|]. split; [exact Hu|].
  split; [exact (cell_scale (fun v => Js.div v 1e15) _ _ _ _ Hf)|].
  split; [exact Hf|].
  split; intros v Hv; by rewrite or_zero_eq, Hv.
Qed.

(** The dense sweep at the grid point (2, 4), whose row comes first in
    the input. *)
Lemma pivot_round_trip_witness :
  exists i j x' y',
    nth_error (battSizes dense_sweep) i = Some (Some y') /\ (y' == 4)%Q /\
    nth_error (pvSizes dense_sweep) j = Some (Some x') /\ (x' == 2)%Q /\
    cell (z (utilizationHeatmap dense_sweep)) i j = Some (Js.mul 0.75 100) /\
    cell (z (flopsHeatmap dense_sweep)) i j = Some (Js.div 40 1e15) /\
    cell (flopsMatrix dense_sweep) i j = Some 40%Q.
Proof.
  destruct (pivot_round_trip dense_sweep [1%Q; 2%Q] [2%Q; 4%Q] 2%Q 4%Q row_2_4)
    as (i & j & x' & y' & Hi & Hy & Hj & Hx & Hu & Hf & Hm & _).
  - reflexivity.
  - right. by left.
  - right. by left.
  - by left.
  - reflexivity.
  - exists i, j, x', y'. split; [exact Hi|]. split; [exact Hy|].
    split; [exact Hj|]. split; [exact Hx|]. split; [exact Hu|].
    split; [exact Hf|exact Hm].
Defined.

(** C9 as stated fails on the heatmaps.  In the dense sweep the row at
    PV size 2 and battery size 4 carries [utilization = 0.75] and
    [total_flops = 40]; that point is column 1 of row 1, where the
    utilization cell holds 75 and the FLOPs cell a number below 1.  Nor
    is the utilization cell always 100 times the field: for the double
    that [0.07] denotes it is 7 + 2^-50, which prints as
    7.000000000000001. *)
Lemma round_trip_scales_utilization :
  dense_grid [1%Q; 2%Q] [2%Q; 4%Q] (SweepData.data dense_sweep) = true /\
  at_point 2%Q 4%Q row_2_4 = true /\
  row_2_4 !! "utilization" = Some 0.75%Q /\
  row_2_4 !! "total_flops" = Some 40%Q /\
  nth_error (battSizes dense_sweep) 1 = Some (Some 4%Q) /\
  nth_error (pvSizes dense_sweep) 1 = Some (Some 2%Q) /\
  (exists u,
     cell (z (utilizationHeatmap dense_sweep)) 1 1 = Some (Js.Finite u) /\
     (u == 75)%Q /\ ~ (u == 0.75)%Q) /\
  (exists f,
     cell (z (flopsHeatmap dense_sweep)) 1 1 = Some (Js.Finite f) /\
     (f < 1)%Q /\ ~ (f == 40)%Q) /\
  Js.round64 0.07 = Js.Finite seven_hundredths /\
  dense_grid [1%Q] [2%Q] (SweepData.data one_row_sweep) = true /\
  row_7_percent !! "utilization" = Some seven_hundredths /\
  (exists u,
     cell (z (utilizationHeatmap one_row_sweep)) 0 0 = Some (Js.Finite u) /\
     (u == 7 + (1 # 2 ^ 50))%Q /\
     ~ (u == seven_hundredths * 100)%Q /\
     ~ (u == seven_hundredths)%Q).
Proof.
  split; [reflexivity|]. split; [reflexivity|]. split; [reflexivity|].
  split; [reflexivity|]. split; [reflexivity|]. split; [reflexivity|].
  split.
  { eexists. split; [by vm_compute|]. split; [by vm_compute|].
    intros H. vm_compute in H. discriminate. }
  split.
  { eexists. split; [by vm_compute|]. split; [by vm_compute|].
    intros H. vm_compute in H. discriminate. }
  split; [by vm_compute|]. split; [reflexivity|]. split; [reflexivity|].
  eexists. split; [by vm_compute|]. split; [by vm_compute|].
  split; intros H; vm_compute in H; discriminate.
Qed.

(** An example.  Three rows: PV sizes 1 and 2, battery sizes 2 and 4,
    and the point (2, 4) missing.  Rows come out by battery size, columns
    by PV size, and the missing point is 0. *)
Theorem sparse_sweep_matrices :
  pvSizes sparse_sweep = [Some 1%Q; Some 2%Q] /\
  battSizes sparse_sweep = [Some 2%Q; Some 4%Q] /\
  flopsMatrix sparse_sweep = [[10%Q; 20%Q]; [30%Q; 0%Q]] /\
  utilizationMatrix sparse_sweep
  = [[Js.Finite 50; Js.Finite 25]; [Js.Finite 0; Js.Finite 0]].
Proof.
  split; [reflexivity|]. split; [reflexivity|]. split; [reflexivity|].
  by vm_compute.
Qed.

End PivotProperties.

(** * Properties of the run orchestrator *)

Module HookProperties.
Import Js Types UseSimulation.

(** ** Reading the derived flags *)

Lemma status_is_spec (lit : RunStatus.state) (s : State) :
  status_is lit s = true <->
  exists st, status s = Some st /\ RunStatus.status st = lit.
Proof.
  unfold status_is. rewrite bool_decide_eq_true.
  destruct (status s) as [st|]; simpl; split.
  - intros [= H]. eauto.
  - intros (st' & [= <-] & H). by rewrite H.
  - discriminate.
  - intros (st' & [=] & _).
Qed.

Lemma isRunning_spec (s : State) :
  isRunning s = true <->
  exists st, status s = Some st /\
    (RunStatus.status st = RunStatus.queued \/
     RunStatus.status st = RunStatus.running).
Proof.
  unfold isRunning. rewrite orb_true_iff, !status_is_spec. split.
  - intros [(st & H1 & H2)|(st & H1 & H2)]; eauto.
  - intros (st & H1 & [H2|H2]); eauto.
Qed.

Lemma isRunning_status_eq (s s' : State) :
  status s' = status s -> isRunning s' = isRunning s.
Proof. unfold isRunning, status_is. by intros ->. Qed.

Lemma truthy_string_spec (o : option string) :
  truthy_string o = true <-> exists id, o = Some id /\ id <> "".
Proof.
  destruct o as [[|c tl]|]; simpl.
  - split; [discriminate|]. intros (id & Hid & Hne). by injection Hid as <-.
  - split; [|done]. intros _. by exists (String c tl).
  - split; [discriminate|]. by intros (id & Hid & _).
Qed.

Lemma has_data_false {A : Type} (data : option A) :
  Live.has_data data = false <-> data = None.
Proof. destruct data; simpl; split; congruence. Qed.

Lemma fetches_timeseries_spec (h : Live.Hook) :
  Live.fetches_timeseries h = true <->
  enabled (timeseriesQuery (Live.cells h)) = true /\ Live.timeseriesData h = None.
Proof.
  unfold Live.fetches_timeseries.
  by rewrite andb_true_iff, negb_true_iff, has_data_false.
Qed.

Lemma fetches_sweep_spec (h : Live.Hook) :
  Live.fetches_sweep h = true <->
  enabled (sweepQuery (Live.cells h)) = true /\ Live.sweepData h = None.
Proof.
  unfold Live.fetches_sweep.
  by rewrite andb_true_iff, negb_true_iff, has_data_false.
Qed.

(** The hooks of the worked scenario, each reached from the one before:
    a call and its accepted request, the poll that reports done, the
    timeseries, the sweep. *)
Lemma scenario_is_reachable :
  Live.replay
    [Live.RunSingleCalled defaultConfig defaultRunOptions;
     Live.CreateRunSettled (answer (mkRunResponse "run-1"))]
    Live.mounted = Some Live.hook_accepted /\
  Live.replay
    [Live.StatusSettled (answer (polled RunStatus.done 100 "Complete"))]
    Live.hook_accepted = Some Live.hook_just_done /\
  Live.replay [Live.TimeseriesSettled (answer some_timeseries)]
    Live.hook_just_done = Some Live.hook_awaiting_sweep /\
  Live.replay [Live.SweepSettled (answer some_sweep)]
    Live.hook_awaiting_sweep = Some Live.hook_finished.
Proof. repeat split. Qed.

(** ** One step of the transition system *)

Lemma poll_step_enabled (o : Api.FetchOutcome RunStatus.t) (h h' : Live.Hook) :
  Live.dispatch (Live.StatusSettled o) h = Some h' ->
  isRunning (Live.cells h) = true.
Proof.
  simpl.
  destruct (truthy_string (runId (Live.cells h))), (isRunning (Live.cells h));
    simpl; congruence.
Qed.

Lemma poll_step_fulfilled (o : Api.FetchOutcome RunStatus.t) (d : RunStatus.t)
    (h h' : Live.Hook) :
  Api.fetchJson o = Fulfilled d ->
  Live.dispatch (Live.StatusSettled o) h = Some h' ->
  h' = Live.with_cells (setStatus (Some d) (Live.cells h)) h.
Proof.
  simpl. intros ->. destruct (_ && _); simpl; congruence.
Qed.

(** Only a fulfilled create-run request makes an idle hook busy. *)
Lemma step_keeps_not_running (e : Live.Event) (h h' : Live.Hook) :
  Live.accepts e = false ->
  isRunning (Live.cells h) = false ->
  Live.dispatch e h = Some h' ->
  isRunning (Live.cells h') = false.
Proof.
  intros Hstart Hidle Hstep. destruct e; simpl in *.
  - by injection Hstep as <-.
  - by injection Hstep as <-.
  - destruct (Live.pending h); [discriminate|].
    unfold await_mutateAsync in Hstep.
    destruct (Api.fetchJson created); [discriminate|].
    by injection Hstep as <-.
  - by injection Hstep as <-.
  - rewrite Hidle, andb_false_r in Hstep. discriminate.
  - destruct (Live.fetches_timeseries h); [|discriminate].
    injection Hstep as <-. simpl.
    rewrite <- Hidle. destruct (Api.fetchJson o); by apply isRunning_status_eq.
  - destruct (Live.fetches_sweep h); [|discriminate].
    injection Hstep as <-. simpl.
    rewrite <- Hidle. destruct (Api.fetchJson o); by apply isRunning_status_eq.
Qed.

Lemma trace_cons (e : Live.Event) (es : list Live.Event) (h : Live.Hook)
    (hs : list Live.Hook) :
  Live.trace (e :: es) h = Some hs ->
  exists h' hs',
    Live.dispatch e h = Some h' /\ Live.trace es h' = Some hs' /\ hs = h' :: hs'.
Proof.
  simpl. destruct (Live.dispatch e h) as [h'|]; [|discriminate].
  destruct (Live.trace es h') as [hs'|] eqn:Htr; [|discriminate].
  intros [= <-]. by exists h', hs'.
Qed.

Lemma replay_keeps_not_running (es : list Live.Event) :
  forall h h',
    forallb (fun e => negb (Live.accepts e)) es = true ->
    isRunning (Live.cells h) = false ->
    Live.replay es h = Some h' ->
    isRunning (Live.cells h') = false.
Proof.
  induction es as [|e es IH]; intros h h' Hes Hidle Hrun; simpl in *.
  - by injection Hrun as <-.
  - apply andb_true_iff in Hes as [He Hes]. apply negb_true_iff in He.
    destruct (Live.dispatch e h) as [h1|] eqn:Hstep; [|discriminate].
    eapply IH; [done| |exact Hrun]. by eapply step_keeps_not_running.
Qed.

(** With no request in flight and no call, no request can settle. *)
Lemma step_without_call (e : Live.Event) (h h' : Live.Hook) :
  Live.is_call e = false ->
  Live.pending h = 0 ->
  Live.dispatch e h = Some h' ->
  Live.accepts e = false /\ Live.pending h' = 0.
Proof.
  intros Hcall Hp Hstep. destruct e; simpl in *; try discriminate.
  - rewrite Hp in Hstep. discriminate.
  - by injection Hstep as <-.
  - destruct (_ && _); [|discriminate]. by injection Hstep as <-.
  - destruct (Live.fetches_timeseries h); [|discriminate].
    by injection Hstep as <-.
  - destruct (Live.fetches_sweep h); [|discriminate].
    by injection Hstep as <-.
Qed.

Lemma replay_without_call (es : list Live.Event) :
  forall h h',
    forallb (fun e => negb (Live.is_call e)) es = true ->
    Live.pending h = 0 ->
    isRunning (Live.cells h) = false ->
    Live.replay es h = Some h' ->
    isRunning (Live.cells h') = false.
Proof.
  induction es as [|e es IH]; intros h h' Hes Hp Hidle Hrun; simpl in *.
  - by injection Hrun as <-.
  - apply andb_true_iff in Hes as [He Hes]. apply negb_true_iff in He.
    destruct (Live.dispatch e h) as [h1|] eqn:Hstep; [|discriminate].
    destruct (step_without_call _ _ _ He Hp Hstep) as [Hacc Hp1].
    eapply IH; [done|done| |exact Hrun]. by eapply step_keeps_not_running.
Qed.

(** A run of polls that ends with a fulfilled ['done'] answer. *)
Lemma polls_until_done (os : list (Api.FetchOutcome RunStatus.t)) :
  forall (o_last : Api.FetchOutcome RunStatus.t) (last : RunStatus.t)
         (h0 : Live.Hook) (hs : list Live.Hook),
    Api.fetchJson o_last = Fulfilled last ->
    Live.trace (map Live.StatusSettled (os ++ [o_last])) h0 = Some hs ->
    exists mid fin,
      hs = mid ++ [fin] /\
      length mid = length os /\
      Forall (fun h => isRunning (Live.cells h) = true) (h0 :: mid) /\
      status (Live.cells fin) = Some last /\
      Live.pending fin = Live.pending h0.
Proof.
  induction os as [|o os IH]; intros o_last last h0 hs Hlast Htr.
  - apply trace_cons in Htr as (h1 & hs1 & Hstep & Htr & ->).
    injection Htr as <-.
    exists [], h1. split; [done|]. split; [done|]. split.
    + constructor; [|constructor]. by eapply poll_step_enabled.
    + by rewrite (poll_step_fulfilled _ _ _ _ Hlast Hstep).
  - rewrite <- app_comm_cons, map_cons in Htr.
    apply trace_cons in Htr as (h1 & hs1 & Hstep & Htr & ->).
    destruct (IH _ _ _ _ Hlast Htr) as (mid & fin & -> & Hlen & Hall & Hfin & Hp).
    exists (h1 :: mid), fin. split; [done|]. split; [simpl; by rewrite Hlen|].
    split; [|split; [done|]].
    + constructor; [by eapply poll_step_enabled | done].
    + rewrite Hp. simpl in Hstep.
      destruct (_ && _); [|discriminate]. by injection Hstep as <-.
Qed.

(** ** The claims *)

(** C2, as the code has it.  [isRunning] is true exactly when a status
    is stored and its [status] field is ['queued'] or ['running'].
    Hence, along any run of polls that ends with a fulfilled ['done']
    answer, [isRunning] holds in the starting state and in every state
    before the last, and is false in the last state, which stores the
    ['done'] answer.  From there it stays false over any events among
    which no create-run request is fulfilled; and if no request was in
    flight, over any events among which there is no call of [runSingle]
    or [runSweep]. *)
Theorem isRunning_until_done
    (os : list (Api.FetchOutcome RunStatus.t))
    (o_last : Api.FetchOutcome RunStatus.t) (last : RunStatus.t)
    (h0 : Live.Hook) (hs : list Live.Hook) :
  Api.fetchJson o_last = Fulfilled last ->
  RunStatus.status last = RunStatus.done ->
  Live.trace (map Live.StatusSettled (os ++ [o_last])) h0 = Some hs ->
  (forall s : State,
     isRunning s = true <->
     exists st, status s = Some st /\
       (RunStatus.status st = RunStatus.queued \/
        RunStatus.status st = RunStatus.running)) /\
  exists mid fin,
    hs = mid ++ [fin] /\
    length mid = length os /\
    Forall (fun h => isRunning (Live.cells h) = true) (h0 :: mid) /\
    status (Live.cells fin) = Some last /\
    isRunning (Live.cells fin) = false /\
    (forall es h',
       forallb (fun e => negb (Live.accepts e)) es = true ->
       Live.replay es fin = Some h' ->
       isRunning (Live.cells h') = false) /\
    (Live.pending h0 = 0 ->
     forall es h',
       forallb (fun e => negb (Live.is_call e)) es = true ->
       Live.replay es fin = Some h' ->
       isRunning (Live.cells h') = false).
Proof.
  intros Hlast Hdone Htr. split; [apply isRunning_spec|].
  destruct (polls_until_done _ _ _ _ _ Hlast Htr)
    as (mid & fin & -> & Hlen & Hall & Hfin & Hp).
  assert (isRunning (Live.cells fin) = false) as Hidle.
  { unfold isRunning, status_is. rewrite Hfin. simpl. by rewrite Hdone. }
  exists mid, fin. split; [done|]. split; [done|]. split; [done|].
  split; [done|]. split; [done|]. split.
  - intros es h' Hes Hrun. by eapply replay_keeps_not_running.
  - intros Hp0 es h' Hes Hrun.
    eapply replay_without_call; [exact Hes| |exact Hidle|exact Hrun].
    by rewrite Hp.
Qed.

(** Three polls after the run was accepted: queued, running, done. *)
Lemma isRunning_until_done_witness :
  exists mid fin,
    Live.trace
      (map Live.StatusSettled
         ([answer (polled RunStatus.queued 0 "Run queued");
           answer (polled RunStatus.running 50 "Simulating")] ++
          [answer (polled RunStatus.done 100 "Complete")]))
      Live.hook_accepted = Some (mid ++ [fin]) /\
    length mid = 2 /\
    Forall (fun h => isRunning (Live.cells h) = true) (Live.hook_accepted :: mid) /\
    isRunning (Live.cells fin) = false.
Proof.
  destruct
    (isRunning_until_done
       [answer (polled RunStatus.queued 0 "Run queued");
        answer (polled RunStatus.running 50 "Simulating")]
       (answer (polled RunStatus.done 100 "Complete"))
       (polled RunStatus.done 100 "Complete")
       Live.hook_accepted
       [Live.with_cells
          (setStatus (Some (polled RunStatus.queued 0 "Run queued")) accepted)
          Live.hook_accepted;
        Live.with_cells
          (setStatus (Some (polled RunStatus.running 50 "Simulating")) accepted)
          Live.hook_accepted;
        Live.with_cells
          (setStatus (Some (polled RunStatus.done 100 "Complete")) accepted)
          Live.hook_accepted]
       eq_refl eq_refl eq_refl)
    as (_ & mid & fin & Hss & Hlen & Hall & _ & Hfin & _).
  exists mid, fin. rewrite <- Hss.
  split; [reflexivity|]. split; [exact Hlen|]. split; [exact Hall|exact Hfin].
Defined.

(** C2 as stated fails in its last part.  The run buttons are disabled
    by [isRunning] only, so two calls can be made before the first
    request is answered.  The first request is accepted as run-1, a
    poll reports it done, and [isRunning] is false; then the second
    request is accepted as run-2 and [isRunning] is true again, with no
    call made after the ['done'] status was stored. *)
Lemma late_acceptance_restarts :
  exists mid fin h',
    Live.trace
      [Live.RunSingleCalled defaultConfig defaultRunOptions;
       Live.RunSingleCalled defaultConfig defaultRunOptions;
       Live.CreateRunSettled (answer (mkRunResponse "run-1"));
       Live.StatusSettled (answer (polled RunStatus.done 100 "Complete"))]
      Live.mounted = Some (mid ++ [fin]) /\
    App.disabled (fst (App.run_buttons (Live.cells Live.mounted))) = false /\
    Forall
      (fun h => App.disabled (fst (App.run_buttons (Live.cells h))) = false)
      (firstn 1 mid) /\
    status (Live.cells fin) = Some (polled RunStatus.done 100 "Complete") /\
    isRunning (Live.cells fin) = false /\
    Live.is_call (Live.CreateRunSettled (answer (mkRunResponse "run-2"))) = false /\
    Live.dispatch (Live.CreateRunSettled (answer (mkRunResponse "run-2"))) fin
    = Some h' /\
    runId (Live.cells h') = Some "run-2" /\
    isRunning (Live.cells h') = true.
Proof.
  eexists [_; _; _], _, _.
  split; [reflexivity|]. split; [reflexivity|].
  split; [by repeat constructor|].
  split; [reflexivity|]. split; [reflexivity|]. split; [reflexivity|].
  split; [reflexivity|]. split; reflexivity.
Qed.

(** C3. [runSingle] and [runSweep] clear the cached timeseries and the
    cached sweep before they issue the create-run request: in the state
    the action leaves at its [await] both are absent, while the handle,
    the status and the error are still those of the caller's state. *)
Theorem submit_clears_artifacts_first
    (config : FullConfig) (options : RunOptions) (s : State) :
  (timeseries (at_await (runSingle config options s)) = None /\
   sweep (at_await (runSingle config options s)) = None /\
   runId (at_await (runSingle config options s)) = runId s /\
   status (at_await (runSingle config options s)) = status s /\
   error (at_await (runSingle config options s)) = error s /\
   request (runSingle config options s) = mkRunRequest single config options) /\
  (timeseries (at_await (runSweep config options s)) = None /\
   sweep (at_await (runSweep config options s)) = None /\
   runId (at_await (runSweep config options s)) = runId s /\
   status (at_await (runSweep config options s)) = status s /\
   error (at_await (runSweep config options s)) = error s /\
   request (runSweep config options s) = mkRunRequest Types.sweep config options).
Proof. repeat split. Qed.

(** C4, as the code has it.  A sweep fetch that fails, with "not found"
    or with anything else, changes nothing: the hook reads only [data] of
    the query, so the state, and with it the error field, stays as it
    was. *)
Theorem sweep_failure_leaves_state
    (o : Api.FetchOutcome SweepData.t) (e : Error) (h : Live.Hook) :
  Api.fetchJson o = Rejected e ->
  enabled (sweepQuery (Live.cells h)) = true ->
  Live.sweepData h = None ->
  Live.dispatch (Live.SweepSettled o) h = Some h.
Proof.
  intros Hr Hen Hdata. simpl.
  rewrite (proj2 (fetches_sweep_spec h)) by done.
  rewrite Hr. simpl. by destruct h.
Qed.

(** A 503 on the sweep fetch of a finished single-mode run. *)
Lemma sweep_failure_leaves_state_witness :
  Live.dispatch (Live.SweepSettled (refusal 503 "Service Unavailable"))
    Live.hook_awaiting_sweep
  = Some Live.hook_awaiting_sweep.
Proof.
  apply (sweep_failure_leaves_state
           (refusal 503 "Service Unavailable")
           (mkError "API error: 503 - Service Unavailable")
           Live.hook_awaiting_sweep);
    reflexivity.
Defined.

(** C4 as stated fails: a sweep fetch answered with status 500 is a
    failure other than "not found", and the error field stays absent. *)
Lemma sweep_failure_not_surfaced :
  Api.not_found (refusal (T:=SweepData.t) 500 "Internal Server Error") = false /\
  Api.fetchJson (refusal (T:=SweepData.t) 500 "Internal Server Error")
  = Rejected (mkError "API error: 500 - Internal Server Error") /\
  ((fun h => error (Live.cells h))
     <$> Live.dispatch (Live.SweepSettled (refusal 500 "Internal Server Error"))
           Live.hook_awaiting_sweep)
  = Some None.
Proof. repeat split. Qed.

(** C5, as the code has it.  [runSingle] and [runSweep] settle the way
    the create-run request does: fulfilled, with the error cleared, when
    it is fulfilled; rejected with the same error, after its message has
    been stored in the error field, when it is rejected.  [reset] is
    synchronous and only calls the setters: it returns, with the idle
    state. *)
Theorem actions_settle_as_create_run
    (config : FullConfig) (options : RunOptions) (s : State)
    (created : Api.FetchOutcome RunResponse) :
  reset s = initial /\
  (forall h, Live.cells <$> Live.dispatch Live.ResetCalled h = Some initial) /\
  match Api.fetchJson created with
  | Fulfilled _ =>
      snd (settle (runSingle config options s) created) = Fulfilled tt /\
      snd (settle (runSweep config options s) created) = Fulfilled tt /\
      error (fst (settle (runSingle config options s) created)) = None /\
      error (fst (settle (runSweep config options s) created)) = None
  | Rejected e =>
      snd (settle (runSingle config options s) created) = Rejected e /\
      snd (settle (runSweep config options s) created) = Rejected e /\
      error (fst (settle (runSingle config options s) created)) = Some (message e) /\
      error (fst (settle (runSweep config options s) created)) = Some (message e)
  end.
Proof.
  split; [reflexivity|]. split; [reflexivity|].
  unfold settle. simpl. unfold await_mutateAsync.
  destruct (Api.fetchJson created); repeat split.
Qed.

(** C5 as stated fails: when the backend refuses the create-run request,
    the promise returned by [runSingle] is rejected. *)
Lemma runSingle_rejects_on_create_failure :
  settle (runSingle defaultConfig defaultRunOptions initial)
    (refusal 422 "invalid configuration")
  = (setError (Some "API error: 422 - invalid configuration") initial,
     Rejected (mkError "API error: 422 - invalid configuration")).
Proof. reflexivity. Qed.

(** C6. [reset] empties the five cells, whatever they held: the hook is
    back in its initial, idle state, where it is not running and none of
    the three queries is enabled. *)
Theorem reset_returns_to_idle (s : State) :
  runId (reset s) = None /\
  status (reset s) = None /\
  timeseries (reset s) = None /\
  sweep (reset s) = None /\
  error (reset s) = None /\
  reset s = initial /\
  isRunning (reset s) = false /\
  enabled (pollQuery (reset s)) = false /\
  enabled (timeseriesQuery (reset s)) = false /\
  enabled (sweepQuery (reset s)) = false.
Proof. repeat split. Qed.

(** C7, as the code has it.  The status query is enabled exactly when
    the handle is a non-empty string and the stored status is ['queued']
    or ['running']; a poll settles only while it is enabled, so never
    without a handle and never once the status is ['done'] or ['error'];
    the refetch interval is 1000 ms; a fulfilled poll replaces the stored
    status by the answer and touches nothing else. *)
Theorem poll_enabled_iff (h : Live.Hook) :
  (enabled (pollQuery (Live.cells h)) = true <->
   (exists id, runId (Live.cells h) = Some id /\ id <> "") /\
   (exists st, status (Live.cells h) = Some st /\
      (RunStatus.status st = RunStatus.queued \/
       RunStatus.status st = RunStatus.running))) /\
  (forall o,
     is_Some (Live.dispatch (Live.StatusSettled o) h)
     <-> enabled (pollQuery (Live.cells h)) = true) /\
  (forall o s,
     Live.dispatch (Live.StatusSettled o) (Live.with_cells (setRunId None s) h)
     = None) /\
  (forall o s,
     Live.dispatch (Live.StatusSettled o) (Live.with_cells (setStatus None s) h)
     = None) /\
  (forall o s p m mt,
     Live.dispatch (Live.StatusSettled o)
       (Live.with_cells
          (setStatus (Some (RunStatus.mk RunStatus.done p m mt)) s) h) = None /\
     Live.dispatch (Live.StatusSettled o)
       (Live.with_cells
          (setStatus (Some (RunStatus.mk RunStatus.error p m mt)) s) h) = None) /\
  refetchInterval (pollQuery (Live.cells h)) = Some 1000%Z /\
  (forall o d h',
     Api.fetchJson o = Fulfilled d ->
     Live.dispatch (Live.StatusSettled o) h = Some h' ->
     h' = Live.with_cells (setStatus (Some d) (Live.cells h)) h) /\
  (forall d s,
     querySettled pollEffect (Fulfilled d) s = setStatus (Some d) s /\
     status (setStatus (Some d) s) = Some d /\
     runId (setStatus (Some d) s) = runId s /\
     timeseries (setStatus (Some d) s) = timeseries s /\
     sweep (setStatus (Some d) s) = sweep s /\
     error (setStatus (Some d) s) = error s).
Proof.
  split; [|split; [|split; [|split; [|split; [|split; [|split]]]]]].
  - simpl. rewrite andb_true_iff, truthy_string_spec, isRunning_spec. tauto.
  - intros o. simpl. destruct (_ && _); split.
    + done.
    + intros _. by eexists.
    + by intros [s' Hs'].
    + discriminate.
  - done.
  - intros o s. simpl. by rewrite andb_false_r.
  - intros o s p m mt. simpl. by rewrite !andb_false_r.
  - done.
  - intros o d h' Ho Hstep. by eapply poll_step_fulfilled.
  - done.
Qed.

(** C7 as stated fails for a handle that exists but is the empty string,
    which is what the hook stores when the backend answers the create-run
    request with [run_id: ""]: the status is ['queued'] and no poll is
    enabled. *)
Lemma poll_disabled_for_empty_handle :
  Live.cells
    <$> Live.replay
          [Live.RunSingleCalled defaultConfig defaultRunOptions;
           Live.CreateRunSettled (answer (mkRunResponse ""))]
          Live.mounted
  = Some (setRunId (Some "") accepted) /\
  runId (setRunId (Some "") accepted) = Some "" /\
  (RunStatus.status <$> status (setRunId (Some "") accepted))
  = Some RunStatus.queued /\
  enabled (pollQuery (setRunId (Some "") accepted)) = false /\
  (forall o,
     Live.dispatch (Live.StatusSettled o)
       (Live.with_cells (setRunId (Some "") accepted) Live.mounted) = None).
Proof. repeat split. Qed.

Lemma not_found_rejects {T : Type} (o : Api.FetchOutcome T) :
  Api.not_found o = true -> exists e, Api.fetchJson o = Rejected e.
Proof.
  destruct o as [e|r]; simpl; [discriminate|].
  intros H%Z.eqb_eq. unfold Api.ok. rewrite H. simpl.
  destruct (Api.text r); eauto.
Qed.

(** C8, as the code has it.  When the sweep fetch for the current handle
    is answered "not found", the cached sweep and the error field stay
    as they were: an absent sweep stays absent and no error is set.  Any
    other failed sweep fetch leaves the very same state, so what the
    hook returns does not tell the two apart. *)
Theorem sweep_not_found_keeps_state
    (o : Api.FetchOutcome SweepData.t) (h : Live.Hook) :
  Api.not_found o = true ->
  enabled (sweepQuery (Live.cells h)) = true ->
  Live.sweepData h = None ->
  exists h',
    Live.dispatch (Live.SweepSettled o) h = Some h' /\
    sweep (Live.cells h') = sweep (Live.cells h) /\
    error (Live.cells h') = error (Live.cells h) /\
    forall o' e,
      Api.fetchJson o' = Rejected e ->
      (fun h => useSimulation (Live.cells h))
        <$> Live.dispatch (Live.SweepSettled o') h
      = Some (useSimulation (Live.cells h')).
Proof.
  intros [e He]%not_found_rejects Hen Hdata. exists h.
  pose proof (proj2 (fetches_sweep_spec h) (conj Hen Hdata)) as Hf.
  simpl. rewrite Hf, He. simpl.
  split; [by destruct h|]. split; [done|]. split; [done|].
  by intros o' e' ->.
Qed.

(** A 404 on the sweep fetch of a finished single-mode run. *)
Lemma sweep_not_found_keeps_state_witness :
  exists h',
    Live.dispatch (Live.SweepSettled (refusal 404 "Not Found"))
      Live.hook_awaiting_sweep = Some h' /\
    sweep (Live.cells h') = None /\
    error (Live.cells h') = None.
Proof.
  destruct (sweep_not_found_keeps_state (refusal 404 "Not Found")
              Live.hook_awaiting_sweep eq_refl eq_refl eq_refl)
    as (h' & Hstep & Hsweep & Herror & _).
  exists h'. split; [exact Hstep|]. split; [exact Hsweep|exact Herror].
Defined.

(** C8 as stated fails in its last part: after "not found" and after a
    server failure the hook returns the same thing. *)
Lemma not_found_same_as_failure :
  Api.not_found (refusal (T:=SweepData.t) 404 "Not Found") = true /\
  Api.not_found (refusal (T:=SweepData.t) 500 "Internal Server Error") = false /\
  (fun h => useSimulation (Live.cells h))
    <$> Live.dispatch (Live.SweepSettled (refusal 404 "Not Found"))
          Live.hook_awaiting_sweep
  = Some (useSimulation awaiting_sweep) /\
  (fun h => useSimulation (Live.cells h))
    <$> Live.dispatch (Live.SweepSettled (refusal 500 "Internal Server Error"))
          Live.hook_awaiting_sweep
  = Some (useSimulation awaiting_sweep).
Proof. repeat split. Qed.

(** C10. When the create-run request of [runSingle] or [runSweep] is
    rejected, the handle and the status keep the values they had before
    the call, the two artifact caches are absent, and the error field
    holds the rejection's message; whatever the state is when the
    rejection arrives, the rejection changes the error field and nothing
    else.  The call itself does not touch the error field: up to the
    [await] it is the caller's, and it is cleared only when a create-run
    request is fulfilled. *)
Theorem create_failure_frame
    (config : FullConfig) (options : RunOptions) (s : State)
    (created : Api.FetchOutcome RunResponse) (e : Error) :
  Api.fetchJson created = Rejected e ->
  fst (settle (runSingle config options s) created)
  = {| runId := runId s; status := status s; timeseries := None;
       sweep := None; error := Some (message e) |} /\
  fst (settle (runSweep config options s) created)
  = {| runId := runId s; status := status s; timeseries := None;
       sweep := None; error := Some (message e) |} /\
  (forall s' : State,
     fst (resume (runSingle config options s) (Rejected e) s')
     = setError (Some (message e)) s' /\
     fst (resume (runSweep config options s) (Rejected e) s')
     = setError (Some (message e)) s') /\
  error (at_await (runSingle config options s)) = error s /\
  error (at_await (runSweep config options s)) = error s /\
  forall created' data,
    Api.fetchJson created' = Fulfilled data ->
    error (fst (settle (runSingle config options s) created')) = None /\
    error (fst (settle (runSweep config options s) created')) = None.
Proof.
  intros He. unfold settle. simpl. unfold await_mutateAsync. rewrite He.
  split; [done|]. split; [done|]. split; [done|]. split; [done|].
  split; [done|]. intros created' data Hok. by rewrite Hok.
Qed.

(** A finished run, then a [runSingle] that the backend refuses with
    422: the old handle and the ['done'] status stay. *)
Lemma create_failure_frame_witness :
  fst (settle (runSingle defaultConfig defaultRunOptions finished)
         (refusal 422 "invalid configuration"))
  = {| runId := Some "run-1";
       status := Some (polled RunStatus.done 100 "Complete");
       timeseries := None;
       sweep := None;
       error := Some "API error: 422 - invalid configuration" |}.
Proof.
  apply (create_failure_frame defaultConfig defaultRunOptions finished
           (refusal 422 "invalid configuration")
           (mkError "API error: 422 - invalid configuration")
           eq_refl).
Defined.

(** X1. A poll that fails leaves the hook as it was: the failure is not
    stored anywhere and the status query stays enabled for the next
    tick. *)
Theorem poll_failure_is_transient
    (o : Api.FetchOutcome RunStatus.t) (e : Error) (h : Live.Hook) :
  Api.fetchJson o = Rejected e ->
  enabled (pollQuery (Live.cells h)) = true ->
  Live.dispatch (Live.StatusSettled o) h = Some h.
Proof. simpl. intros -> ->. simpl. by destruct h. Qed.

(** A 502 on the first poll of an accepted run. *)
Lemma poll_failure_is_transient_witness :
  Live.dispatch (Live.StatusSettled (refusal 502 "Bad Gateway")) Live.hook_accepted
  = Some Live.hook_accepted.
Proof.
  apply (poll_failure_is_transient
           (refusal 502 "Bad Gateway")
           (mkError "API error: 502 - Bad Gateway")
           Live.hook_accepted);
    reflexivity.
Defined.

(** X3. The timeseries query and the sweep query are enabled exactly
    when the handle is a non-empty string and the stored status is
    ['done']; a fetch of theirs settles only then, and only while the
    query holds no data for the handle.  A fulfilled fetch stores its
    data in the matching cache and touches no other cell, and after it
    no further fetch of that query settles for the handle. *)
Theorem artifact_fetch_gating (h : Live.Hook) :
  (enabled (timeseriesQuery (Live.cells h)) = true <->
   (exists id, runId (Live.cells h) = Some id /\ id <> "") /\
   (exists st, status (Live.cells h) = Some st /\
      RunStatus.status st = RunStatus.done)) /\
  enabled (sweepQuery (Live.cells h)) = enabled (timeseriesQuery (Live.cells h)) /\
  (forall o,
     is_Some (Live.dispatch (Live.TimeseriesSettled o) h) <->
     enabled (timeseriesQuery (Live.cells h)) = true /\
     Live.timeseriesData h = None) /\
  (forall o,
     is_Some (Live.dispatch (Live.SweepSettled o) h) <->
     enabled (sweepQuery (Live.cells h)) = true /\ Live.sweepData h = None) /\
  (forall o d h',
     Api.fetchJson o = Fulfilled d ->
     Live.dispatch (Live.TimeseriesSettled o) h = Some h' ->
     Live.cells h' = setTimeseries (Some d) (Live.cells h) /\
     Live.sweepData h' = Live.sweepData h /\
     forall o', Live.dispatch (Live.TimeseriesSettled o') h' = None) /\
  (forall o d h',
     Api.fetchJson o = Fulfilled d ->
     Live.dispatch (Live.SweepSettled o) h = Some h' ->
     Live.cells h' = setSweep (Some d) (Live.cells h) /\
     Live.timeseriesData h' = Live.timeseriesData h /\
     forall o', Live.dispatch (Live.SweepSettled o') h' = None) /\
  (forall d s, querySettled timeseriesEffect (Fulfilled d) s = setTimeseries (Some d) s) /\
  (forall d s, querySettled sweepEffect (Fulfilled d) s = setSweep (Some d) s).
Proof.
  split; [|split; [|split; [|split; [|split; [|split; [|split]]]]]].
  - simpl. rewrite andb_true_iff, truthy_string_spec, status_is_spec. tauto.
  - done.
  - intros o. rewrite <- fetches_timeseries_spec. simpl.
    destruct (Live.fetches_timeseries h); split.
    + done.
    + intros _. by eexists.
    + by intros [s' Hs'].
    + discriminate.
  - intros o. rewrite <- fetches_sweep_spec. simpl.
    destruct (Live.fetches_sweep h); split.
    + done.
    + intros _. by eexists.
    + by intros [s' Hs'].
    + discriminate.
  - intros o d h' Ho Hstep. simpl in Hstep.
    destruct (Live.fetches_timeseries h); [|discriminate].
    rewrite Ho in Hstep. injection Hstep as <-. simpl.
    split; [done|]. split; [done|]. intros o'.
    unfold Live.fetches_timeseries. simpl. by rewrite andb_false_r.
  - intros o d h' Ho Hstep. simpl in Hstep.
    destruct (Live.fetches_sweep h); [|discriminate].
    rewrite Ho in Hstep. injection Hstep as <-. simpl.
    split; [done|]. split; [done|]. intros o'.
    unfold Live.fetches_sweep. simpl. by rewrite andb_false_r.
  - done.
  - done.
Qed.

(** X4. When a poll is answered with status ['error'], the answer
    becomes the stored status, message included; the hook is no longer
    running, no query is enabled any more, and the error field is left
    as it was. *)
Theorem poll_error_is_terminal
    (o : Api.FetchOutcome RunStatus.t) (d : RunStatus.t) (h h' : Live.Hook) :
  Api.fetchJson o = Fulfilled d ->
  RunStatus.status d = RunStatus.error ->
  Live.dispatch (Live.StatusSettled o) h = Some h' ->
  status (Live.cells h') = Some d /\
  error (Live.cells h') = error (Live.cells h) /\
  isRunning (Live.cells h') = false /\
  enabled (pollQuery (Live.cells h')) = false /\
  enabled (timeseriesQuery (Live.cells h')) = false /\
  enabled (sweepQuery (Live.cells h')) = false.
Proof.
  intros Ho Hd Hstep. rewrite (poll_step_fulfilled _ _ _ _ Ho Hstep).
  assert (isRunning (setStatus (Some d) (Live.cells h)) = false) as Hidle.
  { unfold isRunning, status_is. simpl. by rewrite Hd. }
  simpl. unfold status_is. simpl. rewrite Hidle, Hd. simpl.
  by rewrite !andb_false_r.
Qed.

(** The backend reports "invalid configuration" on the first poll. *)
Lemma poll_error_is_terminal_witness :
  status (setStatus (Some (polled RunStatus.error 0 "invalid configuration")) accepted)
  = Some (polled RunStatus.error 0 "invalid configuration") /\
  error (setStatus (Some (polled RunStatus.error 0 "invalid configuration")) accepted)
  = None.
Proof.
  destruct (poll_error_is_terminal
              (answer (polled RunStatus.error 0 "invalid configuration"))
              (polled RunStatus.error 0 "invalid configuration")
              Live.hook_accepted
              (Live.with_cells
                 (setStatus
                    (Some (polled RunStatus.error 0 "invalid configuration"))
                    accepted)
                 Live.hook_accepted)
              eq_refl eq_refl eq_refl)
    as (Hstatus & Herror & _).
  split; [exact Hstatus|exact Herror].
Defined.

End HookProperties.

(** * Properties of the hook with requests in flight *)

Module LiveProperties.
Import Js Types UseSimulation HookProperties.

Lemma run_app (es1 es2 : list Live.Event) (h : Live.Hook) :
  Live.replay (es1 ++ es2) h
  = match Live.replay es1 h with
    | Some h' => Live.replay es2 h'
    | None => None
    end.
Proof.
  revert h. induction es1 as [|e es1 IH]; intros h; simpl; [done|].
  destruct (Live.dispatch e h); [apply IH|done].
Qed.

(** What an event does to the state cells, whenever it can happen. *)
Lemma dispatch_cells (e : Live.Event) (h h' : Live.Hook) :
  Live.dispatch e h = Some h' ->
  Live.cells h'
  = match e with
    | Live.RunSingleCalled config options =>
        at_await (runSingle config options (Live.cells h))
    | Live.RunSweepCalled config options =>
        at_await (runSweep config options (Live.cells h))
    | Live.CreateRunSettled created =>
        fst (await_mutateAsync (Api.fetchJson created) (Live.cells h))
    | Live.ResetCalled => reset (Live.cells h)
    | Live.StatusSettled o =>
        querySettled pollEffect (Api.fetchJson o) (Live.cells h)
    | Live.TimeseriesSettled o =>
        querySettled timeseriesEffect (Api.fetchJson o) (Live.cells h)
    | Live.SweepSettled o =>
        querySettled sweepEffect (Api.fetchJson o) (Live.cells h)
    end.
Proof.
  destruct e; simpl.
  - by intros [= <-].
  - by intros [= <-].
  - destruct (Live.pending h); [discriminate|].
    destruct (Api.fetchJson created); by intros [= <-].
  - by intros [= <-].
  - destruct (_ && _); [|discriminate]. by intros [= <-].
  - destruct (Live.fetches_timeseries h); [|discriminate]. by intros [= <-].
  - destruct (Live.fetches_sweep h); [|discriminate]. by intros [= <-].
Qed.

Lemma step_consistent (e : Live.Event) (h h' : Live.Hook) :
  Live.consistent (Live.cells h) ->
  Live.dispatch e h = Some h' ->
  Live.consistent (Live.cells h').
Proof.
  unfold Live.consistent. intros [Hiff Hdone] Hstep.
  rewrite (dispatch_cells _ _ _ Hstep).
  destruct e.
  - done.
  - done.
  - unfold await_mutateAsync.
    destruct (Api.fetchJson created) as [data|err]; simpl.
    + split; [split; discriminate|]. unfold status_is. simpl. discriminate.
    + done.
  - simpl. split; [done|]. unfold status_is. simpl. discriminate.
  - simpl in Hstep.
    destruct (truthy_string (runId (Live.cells h))) eqn:Hid; simpl in Hstep;
      [|discriminate].
    destruct (Api.fetchJson o) as [d|err]; simpl; [|done].
    split; [|done]. split; [|discriminate].
    intros Hnone. rewrite Hnone in Hid. discriminate.
  - by destruct (Api.fetchJson o).
  - by destruct (Api.fetchJson o).
Qed.

Lemma run_consistent (es : list Live.Event) :
  forall h h',
    Live.consistent (Live.cells h) ->
    Live.replay es h = Some h' ->
    Live.consistent (Live.cells h').
Proof.
  induction es as [|e es IH]; intros h h' Hh Hrun; simpl in Hrun.
  - by injection Hrun as <-.
  - destruct (Live.dispatch e h) as [h1|] eqn:Hstep; [|discriminate].
    eapply IH; [|exact Hrun]. by eapply step_consistent.
Qed.

Lemma step_keeps_error (e : Live.Event) (h h' : Live.Hook) :
  Live.clears_error e = false ->
  Live.dispatch e h = Some h' ->
  is_Some (error (Live.cells h)) ->
  is_Some (error (Live.cells h')).
Proof.
  intros He Hstep Herr. rewrite (dispatch_cells _ _ _ Hstep).
  destruct e; simpl in *; try done.
  - unfold await_mutateAsync.
    destruct (Api.fetchJson created); [discriminate|]. simpl. by eexists.
  - by destruct (Api.fetchJson o).
  - by destruct (Api.fetchJson o).
  - by destruct (Api.fetchJson o).
Qed.

Lemma mounted_consistent (es : list Live.Event) (h : Live.Hook) :
  Live.replay es Live.mounted = Some h -> Live.consistent (Live.cells h).
Proof.
  intros Hrun. eapply run_consistent; [|exact Hrun]. split; [done|].
  unfold status_is. simpl. discriminate.
Qed.

Lemma done_has_handle (s : State) (st : RunStatus.t) :
  Live.consistent s ->
  status s = Some st ->
  RunStatus.status st = RunStatus.done ->
  exists id, runId s = Some id /\ id <> "".
Proof.
  intros [_ Hdone] Hst Hd.
  apply truthy_string_spec, Hdone, status_is_spec. eauto.
Qed.

(** ** Interleavings of calls, requests and queries *)

(** X5. In every state a mounted hook can get to, by any interleaving of
    calls, settling requests and settling queries: the handle is absent
    exactly when the status is absent, and a ['done'] status comes with a
    handle that is not the empty string. *)
Theorem handle_and_status_go_together (es : list Live.Event) (h : Live.Hook) :
  Live.replay es Live.mounted = Some h ->
  (runId (Live.cells h) = None <-> status (Live.cells h) = None) /\
  (forall st,
     status (Live.cells h) = Some st ->
     RunStatus.status st = RunStatus.done ->
     exists id, runId (Live.cells h) = Some id /\ id <> "").
Proof.
  intros Hrun. pose proof (mounted_consistent es h Hrun) as Hc.
  split; [apply Hc|]. intros st. by apply done_has_handle.
Qed.

(** A run accepted, polled once, reported done, and its two artifacts
    fetched. *)
Lemma handle_and_status_go_together_witness :
  exists id, runId finished = Some id /\ id <> "".
Proof.
  destruct
    (handle_and_status_go_together
       [Live.RunSingleCalled defaultConfig defaultRunOptions;
        Live.CreateRunSettled (answer (mkRunResponse "run-1"));
        Live.StatusSettled (answer (polled RunStatus.done 100 "Complete"));
        Live.TimeseriesSettled (answer some_timeseries);
        Live.SweepSettled (answer some_sweep)]
       Live.hook_finished eq_refl)
    as [_ Hdone].
  exact (Hdone (polled RunStatus.done 100 "Complete") eq_refl eq_refl).
Defined.

(** X6. The clearing at the start of [runSingle] and [runSweep] does not
    keep a late answer out.  If the previous run is done, its timeseries
    and sweep fetches are still outstanding at the call, and they settle
    after the call but before the create-run request does, their data
    is stored, and it is still there under the new handle once the
    request is fulfilled. *)
Theorem late_artifact_survives_new_run
    (h : Live.Hook) (config : FullConfig) (options : RunOptions)
    (ot : Api.FetchOutcome TimeseriesData.t) (dt : TimeseriesData.t)
    (os : Api.FetchOutcome SweepData.t) (ds : SweepData.t)
    (created : Api.FetchOutcome RunResponse) (resp : RunResponse) :
  enabled (timeseriesQuery (Live.cells h)) = true ->
  Live.timeseriesData h = None ->
  Live.sweepData h = None ->
  Api.fetchJson ot = Fulfilled dt ->
  Api.fetchJson os = Fulfilled ds ->
  Api.fetchJson created = Fulfilled resp ->
  forall call,
    call = Live.RunSingleCalled config options \/
    call = Live.RunSweepCalled config options ->
    exists h1 h',
      Live.dispatch call h = Some h1 /\
      timeseries (Live.cells h1) = None /\
      sweep (Live.cells h1) = None /\
      Live.replay
        [Live.TimeseriesSettled ot; Live.SweepSettled os;
         Live.CreateRunSettled created] h1 = Some h' /\
      runId (Live.cells h') = Some (run_id resp) /\
      (RunStatus.status <$> status (Live.cells h')) = Some RunStatus.queued /\
      timeseries (Live.cells h') = Some dt /\
      sweep (Live.cells h') = Some ds.
Proof.
  intros Hen Hdt Hds Ht Hs Hc call Hcall.
  assert (enabled (timeseriesQuery
                     (at_await (runSingle config options (Live.cells h))))
          = true) as Hen1 by exact Hen.
  exists {| Live.cells := at_await (runSingle config options (Live.cells h));
            Live.pending := S (Live.pending h);
            Live.timeseriesData := Live.timeseriesData h;
            Live.sweepData := Live.sweepData h |}.
  eexists. split; [by destruct Hcall as [-> | ->]|].
  split; [done|]. split; [done|].
  cbn [Live.replay Live.dispatch].
  unfold Live.fetches_timeseries, Live.fetches_sweep.
  cbn [Live.cells Live.pending Live.timeseriesData Live.sweepData].
  rewrite Hen1, Hdt, Ht.
  cbn [Live.has_data negb andb querySettled Live.data_after
       Live.cells Live.pending Live.timeseriesData Live.sweepData].
  assert (enabled (sweepQuery
                     (timeseriesEffect (Some dt)
                        (at_await (runSingle config options (Live.cells h)))))
          = true) as Hen2 by exact Hen.
  rewrite Hen2, Hds, Hs.
  cbn [Live.has_data negb andb querySettled Live.data_after
       Live.cells Live.pending Live.timeseriesData Live.sweepData].
  unfold await_mutateAsync. rewrite Hc.
  split; [reflexivity|]. by repeat split.
Qed.

(** Run-1 is reported done and the user clicks again at once: its
    timeseries and its sweep arrive after the click. *)
Lemma late_artifact_survives_new_run_witness :
  Live.replay
    [Live.RunSingleCalled defaultConfig defaultRunOptions;
     Live.CreateRunSettled (answer (mkRunResponse "run-1"));
     Live.StatusSettled (answer (polled RunStatus.done 100 "Complete"))]
    Live.mounted = Some Live.hook_just_done /\
  exists h1 h',
    Live.dispatch (Live.RunSingleCalled defaultConfig defaultRunOptions)
      Live.hook_just_done = Some h1 /\
    Live.replay
      [Live.TimeseriesSettled (answer some_timeseries);
       Live.SweepSettled (answer some_sweep);
       Live.CreateRunSettled (answer (mkRunResponse "run-2"))] h1 = Some h' /\
    runId (Live.cells h') = Some "run-2" /\
    timeseries (Live.cells h') = Some some_timeseries.
Proof.
  split; [reflexivity|].
  destruct
    (late_artifact_survives_new_run
       Live.hook_just_done defaultConfig defaultRunOptions
       (answer some_timeseries) some_timeseries
       (answer some_sweep) some_sweep
       (answer (mkRunResponse "run-2")) (mkRunResponse "run-2")
       eq_refl eq_refl eq_refl eq_refl eq_refl eq_refl
       (Live.RunSingleCalled defaultConfig defaultRunOptions)
       (or_introl eq_refl))
    as (h1 & h' & Hcall & _ & _ & Hrun & Hid & _ & Hts & _).
  exists h1, h'. split; [exact Hcall|]. split; [exact Hrun|].
  split; [exact Hid|exact Hts].
Defined.

(** X7. Once an error message is stored, the error field stays set
    through every call, poll, artifact fetch and refused create-run
    request; only a fulfilled create-run request or [reset] clears it. *)
Theorem error_stays_until_cleared (es : list Live.Event) :
  forall h h',
    is_Some (error (Live.cells h)) ->
    forallb (fun e => negb (Live.clears_error e)) es = true ->
    Live.replay es h = Some h' ->
    is_Some (error (Live.cells h')).
Proof.
  induction es as [|e es IH]; intros h h' Herr Hes Hrun; simpl in *.
  - by injection Hrun as <-.
  - apply andb_true_iff in Hes as [He Hes]. apply negb_true_iff in He.
    destruct (Live.dispatch e h) as [h1|] eqn:Hstep; [|discriminate].
    eapply IH; [|done|exact Hrun]. by eapply step_keeps_error.
Qed.

(** A first submission refused with 422 on a fresh page, then a second
    one refused with 503. *)
Lemma error_stays_until_cleared_witness :
  is_Some
    (error (setError (Some "API error: 503 - Service Unavailable") initial)).
Proof.
  apply (error_stays_until_cleared
           [Live.RunSingleCalled defaultConfig defaultRunOptions;
            Live.CreateRunSettled (refusal 503 "Service Unavailable")]
           (Live.with_cells
              (setError (Some "API error: 422 - invalid configuration") initial)
              Live.mounted)
           (Live.with_cells
              (setError (Some "API error: 503 - Service Unavailable") initial)
              Live.mounted)).
  - by eexists.
  - reflexivity.
  - reflexivity.
Defined.

(** X8. [reset] does not cancel a create-run request that is in flight:
    when the request is fulfilled afterwards, the hook takes its handle
    and is running again. *)
Theorem reset_does_not_cancel_submission
    (h : Live.Hook) (created : Api.FetchOutcome RunResponse)
    (resp : RunResponse) :
  Live.pending h <> 0 ->
  Api.fetchJson created = Fulfilled resp ->
  exists h',
    Live.replay [Live.ResetCalled; Live.CreateRunSettled created] h = Some h' /\
    runId (Live.cells h') = Some (run_id resp) /\
    isRunning (Live.cells h') = true /\
    Live.cells h' <> initial.
Proof.
  intros Hp Hc. simpl. destruct (Live.pending h) as [|n]; [done|].
  unfold await_mutateAsync. rewrite Hc. simpl.
  eexists. split; [done|]. split; [done|]. split; [done|]. discriminate.
Qed.

(** A second click on a finished run, then [reset] while its request is
    in flight. *)
Lemma reset_does_not_cancel_submission_witness :
  exists h',
    Live.replay
      [Live.ResetCalled; Live.CreateRunSettled (answer (mkRunResponse "run-2"))]
      (Live.mkHook just_done 1 (Some some_timeseries) (Some some_sweep))
    = Some h' /\
    runId (Live.cells h') = Some "run-2".
Proof.
  destruct
    (reset_does_not_cancel_submission
       (Live.mkHook just_done 1 (Some some_timeseries) (Some some_sweep))
       (answer (mkRunResponse "run-2"))
       (mkRunResponse "run-2") (Nat.neq_succ_0 0) eq_refl)
    as (h' & Hrun & Hid & _).
  exists h'. split; [exact Hrun|exact Hid].
Defined.

(** X9. A call does not lock the run buttons: they are disabled by
    [isRunning], which a call leaves as it was.  So a second call can be
    made while the first request is in flight, and then the requests
    are applied in the order they settle: of two fulfilled requests the
    later handle is kept, and a refusal that settles after a fulfilled
    request leaves that request's handle and ['queued'] status in place
    with the refusal's message in the error field. *)
Theorem submissions_apply_in_settling_order
    (h : Live.Hook) (config : FullConfig) (options : RunOptions)
    (c1 c2 : Api.FetchOutcome RunResponse) (r1 : RunResponse) :
  Api.fetchJson c1 = Fulfilled r1 ->
  (App.run_buttons (at_await (runSingle config options (Live.cells h)))
   = App.run_buttons (Live.cells h) /\
   App.run_buttons (at_await (runSweep config options (Live.cells h)))
   = App.run_buttons (Live.cells h)) /\
  exists h',
    Live.replay
      [Live.RunSingleCalled config options; Live.RunSingleCalled config options;
       Live.CreateRunSettled c1; Live.CreateRunSettled c2] h = Some h' /\
    Live.pending h' = Live.pending h /\
    match Api.fetchJson c2 with
    | Fulfilled r2 =>
        runId (Live.cells h') = Some (run_id r2) /\
        error (Live.cells h') = None
    | Rejected e =>
        runId (Live.cells h') = Some (run_id r1) /\
        isRunning (Live.cells h') = true /\
        error (Live.cells h') = Some (message e)
    end.
Proof.
  intros H1. split; [split; reflexivity|]. simpl.
  unfold await_mutateAsync. rewrite H1. simpl.
  destruct (Api.fetchJson c2); eexists; (split; [reflexivity|]); by simpl.
Qed.

Lemma submissions_apply_in_settling_order_witness :
  exists h',
    Live.replay
      [Live.RunSingleCalled defaultConfig defaultRunOptions;
       Live.RunSingleCalled defaultConfig defaultRunOptions;
       Live.CreateRunSettled (answer (mkRunResponse "run-1"));
       Live.CreateRunSettled (refusal 429 "Too Many Requests")]
      Live.mounted = Some h' /\
    runId (Live.cells h') = Some "run-1" /\
    error (Live.cells h') = Some "API error: 429 - Too Many Requests".
Proof.
  destruct
    (submissions_apply_in_settling_order
       Live.mounted defaultConfig defaultRunOptions
       (answer (mkRunResponse "run-1")) (refusal 429 "Too Many Requests")
       (mkRunResponse "run-1") eq_refl)
    as (_ & h' & Hrun & _ & Hid & _ & Herr).
  exists h'. split; [exact Hrun|]. split; [exact Hid|exact Herr].
Defined.

End LiveProperties.

(** * Properties of the result views *)

Module ViewProperties.
Import Js Types UseSimulation HookProperties.

Lemma append_inj_r (p a b : string) : p +:+ a = p +:+ b -> a = b.
Proof.
  induction p as [|c p IH]; simpl; [done|]. intros [= H]. by apply IH.
Qed.

Lemma getDownloadUrl_inj (base id a b : string) :
  ExportTab.getDownloadUrl base id a = ExportTab.getDownloadUrl base id b ->
  a = b.
Proof.
  unfold ExportTab.getDownloadUrl. intros H.
  by do 4 apply append_inj_r in H.
Qed.

Lemma step_leaves_error (e : Live.Event) (h h' : Live.Hook) :
  Live.writes_error e = false ->
  Live.dispatch e h = Some h' ->
  error (Live.cells h') = error (Live.cells h).
Proof.
  intros He Hstep. rewrite (LiveProperties.dispatch_cells _ _ _ Hstep).
  destruct e; simpl in *; try done; by destruct (Api.fetchJson o).
Qed.

Lemma run_leaves_error (es : list Live.Event) :
  forall h h',
    forallb (fun e => negb (Live.writes_error e)) es = true ->
    Live.replay es h = Some h' ->
    error (Live.cells h') = error (Live.cells h).
Proof.
  induction es as [|e es IH]; intros h h' Hes Hrun; simpl in *.
  - by injection Hrun as <-.
  - apply andb_true_iff in Hes as [He Hes]. apply negb_true_iff in He.
    destruct (Live.dispatch e h) as [h1|] eqn:Hstep; [|discriminate].
    rewrite (IH _ _ Hes Hrun). by eapply step_leaves_error.
Qed.

Lemma panel_error (s : State) (c : Ascii.ascii) (m : string)
    (tab : Results.TabId) :
  error s = Some (String c m) ->
  App.results_panel s tab = Results.ErrorState (String c m).
Proof.
  intros H. unfold App.results_panel, Results.Results. simpl. by rewrite H.
Qed.

(** ** What the panel shows *)

(** X10. When the backend refuses a create-run request with a status
    outside 200-299, the right panel shows
    [API error: <status> - <body>] in place of whatever the hook holds,
    the stored status of the previous run included, and it goes on
    showing exactly that through every later call, poll and artifact
    fetch, until another create-run request settles or [reset] is
    called. *)
Theorem refused_submission_masks_results
    (h h1 h2 : Live.Hook) (r : Api.Response RunResponse) (body : string)
    (es : list Live.Event) (tab : Results.TabId) :
  Api.ok r = false ->
  Api.text r = Fulfilled body ->
  Live.dispatch (Live.CreateRunSettled (Api.Responded r)) h = Some h1 ->
  forallb (fun e => negb (Live.writes_error e)) es = true ->
  Live.replay es h1 = Some h2 ->
  status (Live.cells h1) = status (Live.cells h) /\
  App.results_panel (Live.cells h1) tab
  = Results.ErrorState
      ("API error: " +:+ pretty (Api.status r) +:+ " - " +:+ body) /\
  App.results_panel (Live.cells h2) tab
  = Results.ErrorState
      ("API error: " +:+ pretty (Api.status r) +:+ " - " +:+ body).
Proof.
  intros Hok Htext Hstep Hes Hrun.
  assert (error (Live.cells h1)
          = Some ("API error: " +:+ pretty (Api.status r) +:+ " - " +:+ body)
          /\ status (Live.cells h1) = status (Live.cells h)) as [Herr Hst].
  { rewrite (LiveProperties.dispatch_cells _ _ _ Hstep).
    unfold await_mutateAsync. simpl. by rewrite Hok, Htext. }
  split; [done|]. split.
  - by apply panel_error.
  - apply panel_error. by rewrite (run_leaves_error _ _ _ Hes Hrun).
Qed.

(** Run-1 is reported done and the user clicks again at once; the
    request is refused with 422, and then the timeseries of run-1
    arrives. *)
Lemma refused_submission_masks_results_witness :
  Live.replay
    [Live.RunSingleCalled defaultConfig defaultRunOptions;
     Live.CreateRunSettled (answer (mkRunResponse "run-1"));
     Live.StatusSettled (answer (polled RunStatus.done 100 "Complete"));
     Live.RunSingleCalled defaultConfig defaultRunOptions]
    Live.mounted = Some (Live.mkHook just_done 1 None None) /\
  App.results_panel
    (setTimeseries (Some some_timeseries)
       (setError (Some "API error: 422 - invalid configuration") just_done))
    Results.timeseries
  = Results.ErrorState "API error: 422 - invalid configuration".
Proof.
  split; [reflexivity|].
  apply (refused_submission_masks_results
           (Live.mkHook just_done 1 None None)
           (Live.mkHook
              (setError (Some "API error: 422 - invalid configuration") just_done)
              0 None None)
           (Live.mkHook
              (setTimeseries (Some some_timeseries)
                 (setError (Some "API error: 422 - invalid configuration")
                    just_done))
              0 (Some some_timeseries) None)
           (Api.mkResponse 422 (Fulfilled "invalid configuration")
              (Rejected (mkError "Unexpected end of JSON input")))
           "invalid configuration"
           [Live.TimeseriesSettled (answer some_timeseries)]
           Results.timeseries);
    reflexivity.
Defined.

Lemma done_panel (s : State) (tab : Results.TabId) (tabs : Results.Tabbed) :
  App.results_panel s tab = Results.Done tabs ->
  (exists st, status s = Some st /\ RunStatus.status st = RunStatus.done) /\
  Results.content tabs
  = Results.when (bool_decide (tab = Results.summary))
      (Results.SummaryTab (default None (RunStatus.metrics <$> status s)))
    ++ (if bool_decide (tab = Results.timeseries)
        then Results.with_data (timeseries s) Results.TimeseriesTab
        else [])
    ++ (if bool_decide (tab = Results.sweep)
        then Results.with_data (sweep s) Results.SweepTab
        else [])
    ++ Results.when (bool_decide (tab = Results.export))
         (Results.ExportTab (runId s) (bool_decide (is_Some (sweep s)))).
Proof.
  unfold App.results_panel, Results.Results. simpl.
  destruct (truthy_string (error s)); [discriminate|].
  destruct (status s) as [st|]; [|discriminate].
  destruct st as [[] p m mt]; simpl; try discriminate.
  intros [= <-]. simpl. split; [|done]. by eexists.
Qed.

(** X11. Under the hook, the Export tab never shows "No run to export":
    whenever the panel mounts it, in any state a mounted hook can get
    to, the handle is a non-empty string and the tab lists the
    downloads, four when a sweep is cached and three otherwise. *)
Theorem export_tab_always_lists
    (es : list Live.Event) (h : Live.Hook) (tab : Results.TabId)
    (tabs : Results.Tabbed) (API_BASE : string)
    (rid : option string) (hasSweep : bool) :
  Live.replay es Live.mounted = Some h ->
  App.results_panel (Live.cells h) tab = Results.Done tabs ->
  In (Results.ExportTab rid hasSweep) (Results.content tabs) ->
  exists id items,
    rid = Some id /\ id <> "" /\
    hasSweep = bool_decide (is_Some (sweep (Live.cells h))) /\
    ExportTab.ExportTab API_BASE rid hasSweep = ExportTab.DownloadList items /\
    length items = (if hasSweep then 4 else 3)%nat.
Proof.
  intros Hrun Hpanel Hin.
  apply done_panel in Hpanel as [(st & Hst & Hdone) Hcontent].
  destruct (LiveProperties.done_has_handle _ st
              (LiveProperties.mounted_consistent es h Hrun) Hst Hdone)
    as (id & Hrid & Hne).
  rewrite Hcontent in Hin.
  assert (rid = runId (Live.cells h) /\
          hasSweep = bool_decide (is_Some (sweep (Live.cells h)))) as [-> ->].
  { destruct tab; simpl in Hin.
    - by destruct Hin as [Hin|[]].
    - by destruct (timeseries (Live.cells h)); simpl in Hin; destruct Hin.
    - by destruct (sweep (Live.cells h)); simpl in Hin; destruct Hin.
    - destruct Hin as [[= -> ->]|[]]. done. }
  exists id. eexists. split; [done|]. split; [done|]. split; [done|].
  unfold ExportTab.ExportTab. rewrite Hrid.
  destruct id as [|c id]; [done|]. cbn [truthy_string negb default].
  split; [reflexivity|].
  rewrite length_map. unfold ExportTab.downloads.
  destruct (bool_decide (is_Some (sweep (Live.cells h)))); reflexivity.
Qed.

Lemma export_tab_always_lists_witness :
  exists id items,
    runId finished = Some id /\ id <> "" /\
    ExportTab.ExportTab "" (runId finished) true = ExportTab.DownloadList items /\
    length items = 4%nat.
Proof.
  destruct
    (export_tab_always_lists
       [Live.RunSweepCalled defaultConfig defaultRunOptions;
        Live.CreateRunSettled (answer (mkRunResponse "run-1"));
        Live.StatusSettled (answer (polled RunStatus.done 100 "Complete"));
        Live.TimeseriesSettled (answer some_timeseries);
        Live.SweepSettled (answer some_sweep)]
       Live.hook_finished Results.export
       {| Results.active := Results.export;
          Results.timeseries_disabled := false;
          Results.sweep_disabled := false;
          Results.content := [Results.ExportTab (Some "run-1") true] |}
       "" (Some "run-1") true eq_refl eq_refl (or_introl eq_refl))
    as (id & items & Hid & Hne & _ & Hview & Hlen).
  exists id, items. split; [exact Hid|]. split; [exact Hne|].
  split; [exact Hview|exact Hlen].
Defined.

(** X12. The Export tab for a handle that is a non-empty string: the
    React keys are pairwise different, so are the link targets, every
    target is [API_BASE/api/runs/<id>/download/<artifact>] for the file
    name the link suggests, the three fixed artifacts are always listed
    and [sweep.csv] exactly when [hasSweep] holds.  Without a handle, or
    with the empty string as handle, the tab shows "No run to export". *)
Theorem export_links (API_BASE id : string) (hasSweep : bool) :
  id <> "" ->
  (exists items,
     ExportTab.ExportTab API_BASE (Some id) hasSweep = ExportTab.DownloadList items /\
     NoDup (map ExportTab.key items) /\
     NoDup (map ExportTab.href items) /\
     Forall
       (fun it =>
          ExportTab.href it
          = API_BASE +:+ "/api/runs/" +:+ id +:+ "/download/" +:+ ExportTab.download it /\
          ExportTab.key it = ExportTab.download it)
       items /\
     In "timeseries.csv" (map ExportTab.download items) /\
     In "metrics.json" (map ExportTab.download items) /\
     In "config.json" (map ExportTab.download items) /\
     (In "sweep.csv" (map ExportTab.download items) <-> hasSweep = true)) /\
  ExportTab.ExportTab API_BASE None hasSweep = ExportTab.NoRun /\
  ExportTab.ExportTab API_BASE (Some "") hasSweep = ExportTab.NoRun.
Proof.
  intros Hne. split; [|done].
  unfold ExportTab.ExportTab. destruct id as [|c id]; [done|].
  cbn [truthy_string negb default]. eexists. split; [reflexivity|].
  rewrite !map_map. cbn [ExportTab.key ExportTab.href ExportTab.download].
  assert (NoDup (map ExportTab.artifact (ExportTab.downloads hasSweep))) as Hnd.
  { destruct hasSweep; compute_done. }
  split; [done|]. split.
  { rewrite <- (map_map ExportTab.artifact
                  (ExportTab.getDownloadUrl API_BASE (String c id))).
    change (NoDup (ExportTab.getDownloadUrl API_BASE (String c id)
                     <$> map ExportTab.artifact (ExportTab.downloads hasSweep))).
    apply NoDup_fmap_2; [|done].
    intros a b. apply getDownloadUrl_inj. }
  split.
  { apply List.Forall_forall. intros it (dl & <- & _)%in_map_iff. done. }
  destruct hasSweep; simpl; intuition discriminate.
Qed.

Lemma export_links_witness :
  exists items,
    ExportTab.ExportTab "http://localhost:8000" (Some "run-1") false
    = ExportTab.DownloadList items /\
    NoDup (map ExportTab.href items).
Proof.
  destruct (export_links "http://localhost:8000" "run-1" false)
    as [(items & Hview & _ & Hnd & _) _]; [discriminate|].
  exists items. split; [exact Hview|exact Hnd].
Defined.

(** X13. When the previous run's timeseries fetch is still outstanding
    at the call of [runSingle] or [runSweep], settles after the call,
    and the new run then completes, the Timeseries tab is enabled and
    shows the previous run's data under the new handle; the new run's
    own timeseries is still being fetched. *)
Theorem stale_timeseries_is_shown
    (h : Live.Hook) (config : FullConfig) (options : RunOptions)
    (ot : Api.FetchOutcome TimeseriesData.t) (dt : TimeseriesData.t)
    (created : Api.FetchOutcome RunResponse) (resp : RunResponse)
    (op : Api.FetchOutcome RunStatus.t) (st : RunStatus.t) :
  enabled (timeseriesQuery (Live.cells h)) = true ->
  Live.timeseriesData h = None ->
  Api.fetchJson ot = Fulfilled dt ->
  Api.fetchJson created = Fulfilled resp ->
  run_id resp <> "" ->
  Api.fetchJson op = Fulfilled st ->
  RunStatus.status st = RunStatus.done ->
  forall call,
    call = Live.RunSingleCalled config options \/
    call = Live.RunSweepCalled config options ->
    exists h',
      Live.replay
        [call; Live.TimeseriesSettled ot; Live.CreateRunSettled created;
         Live.StatusSettled op] h = Some h' /\
      runId (Live.cells h') = Some (run_id resp) /\
      App.results_panel (Live.cells h') Results.timeseries
      = Results.Done
          {| Results.active := Results.timeseries;
             Results.timeseries_disabled := false;
             Results.sweep_disabled := true;
             Results.content := [Results.TimeseriesTab dt] |} /\
      Live.fetches_timeseries h' = true.
Proof.
  intros Hen Hdt Ht Hc Hid Hp Hdone call Hcall.
  destruct resp as [rid]. simpl in Hid. destruct rid as [|c id]; [done|].
  assert (enabled (timeseriesQuery
                     (at_await (runSingle config options (Live.cells h)))) = true)
    as He1 by exact Hen.
  assert (Live.replay [call] h
          = Some
              {| Live.cells := at_await (runSingle config options (Live.cells h));
                 Live.pending := S (Live.pending h);
                 Live.timeseriesData := Live.timeseriesData h;
                 Live.sweepData := Live.sweepData h |}) as Hcall1
    by by destruct Hcall as [-> | ->].
  change (Live.replay
            [call; Live.TimeseriesSettled ot; Live.CreateRunSettled created;
             Live.StatusSettled op] h)
    with (Live.replay
            ([call] ++
             [Live.TimeseriesSettled ot; Live.CreateRunSettled created;
              Live.StatusSettled op]) h).
  rewrite LiveProperties.run_app, Hcall1.
  cbn [Live.replay Live.dispatch].
  unfold Live.fetches_timeseries.
  cbn [Live.cells Live.pending Live.timeseriesData Live.sweepData].
  rewrite He1, Hdt, Ht.
  cbn [Live.has_data negb andb querySettled Live.data_after
       Live.cells Live.pending Live.timeseriesData Live.sweepData].
  unfold await_mutateAsync. rewrite Hc.
  cbn [mutateAsync fst createRunMutation onSuccess].
  simpl. rewrite Hp. simpl.
  eexists. split; [reflexivity|]. split; [done|].
  unfold App.results_panel, Results.Results, Live.fetches_timeseries; simpl.
  unfold status_is. simpl.
  destruct st as [tag p m mt]; simpl in *. by rewrite Hdone.
Qed.

(** Run-1 is reported done and the user clicks again at once; the
    timeseries of run-1 arrives, run-2 is accepted and reported done. *)
Lemma stale_timeseries_is_shown_witness :
  exists h',
    Live.replay
      [Live.RunSingleCalled defaultConfig defaultRunOptions;
       Live.TimeseriesSettled (answer some_timeseries);
       Live.CreateRunSettled (answer (mkRunResponse "run-2"));
       Live.StatusSettled (answer (polled RunStatus.done 100 "Complete"))]
      Live.hook_just_done = Some h' /\
    runId (Live.cells h') = Some "run-2" /\
    timeseries (Live.cells h') = Some some_timeseries.
Proof.
  assert ("run-2" <> "") as Hne by discriminate.
  destruct
    (stale_timeseries_is_shown
       Live.hook_just_done defaultConfig defaultRunOptions
       (answer some_timeseries) some_timeseries
       (answer (mkRunResponse "run-2")) (mkRunResponse "run-2")
       (answer (polled RunStatus.done 100 "Complete"))
       (polled RunStatus.done 100 "Complete")
       eq_refl eq_refl eq_refl eq_refl
       Hne
       eq_refl eq_refl
       (Live.RunSingleCalled defaultConfig defaultRunOptions)
       (or_introl eq_refl))
    as (h' & Hrun & Hid & _).
  exists h'. split; [exact Hrun|]. split; [exact Hid|].
  injection Hrun as <-. reflexivity.
Defined.

(** X21. After a single run has finished, a panel left on the Sweep tab
    is blank.  When the sweep fetch of the run fails the sweep stays
    absent; with the run done, the error cleared and the Sweep tab still
    the active one, the panel mounts no tab at all and the Sweep button
    is disabled. *)
Theorem sweep_tab_blank_after_single_run
    (h : Live.Hook) (config : FullConfig) (options : RunOptions)
    (created : Api.FetchOutcome RunResponse) (resp : RunResponse)
    (op : Api.FetchOutcome RunStatus.t) (st : RunStatus.t)
    (os : Api.FetchOutcome SweepData.t) (e : Error) :
  Api.fetchJson created = Fulfilled resp ->
  run_id resp <> "" ->
  Api.fetchJson op = Fulfilled st ->
  RunStatus.status st = RunStatus.done ->
  Api.fetchJson os = Rejected e ->
  exists h',
    Live.replay
      [Live.RunSingleCalled config options; Live.CreateRunSettled created;
       Live.StatusSettled op; Live.SweepSettled os] h = Some h' /\
    exists tabs,
      App.results_panel (Live.cells h') Results.sweep = Results.Done tabs /\
      Results.content tabs = [] /\
      Results.sweep_disabled tabs = true /\
      Results.active tabs = Results.sweep.
Proof.
  intros Hc Hid Hp Hdone Hs.
  destruct resp as [rid]. simpl in Hid. destruct rid as [|c id]; [done|].
  cbn [Live.replay Live.dispatch Live.cells Live.pending].
  unfold await_mutateAsync. rewrite Hc.
  cbn [mutateAsync fst createRunMutation onSuccess].
  simpl. rewrite Hp. simpl.
  unfold Live.fetches_sweep, Live.with_cells. simpl.
  unfold status_is. simpl. rewrite Hdone. simpl. rewrite Hs. simpl.
  eexists. split; [reflexivity|].
  unfold App.results_panel, Results.Results. simpl. rewrite Hdone.
  eexists. split; [reflexivity|]. by simpl.
Qed.

(** A single run on a fresh page; its sweep fetch is answered 404. *)
Lemma sweep_tab_blank_after_single_run_witness :
  exists h',
    Live.replay
      [Live.RunSingleCalled defaultConfig defaultRunOptions;
       Live.CreateRunSettled (answer (mkRunResponse "run-1"));
       Live.StatusSettled (answer (polled RunStatus.done 100 "Complete"));
       Live.SweepSettled (refusal 404 "Not Found")] Live.mounted = Some h' /\
    exists tabs,
      App.results_panel (Live.cells h') Results.sweep = Results.Done tabs /\
      Results.content tabs = [].
Proof.
  assert ("run-1" <> "") as Hne by discriminate.
  destruct
    (sweep_tab_blank_after_single_run
       Live.mounted defaultConfig defaultRunOptions
       (answer (mkRunResponse "run-1")) (mkRunResponse "run-1")
       (answer (polled RunStatus.done 100 "Complete"))
       (polled RunStatus.done 100 "Complete")
       (refusal 404 "Not Found")
       (mkError "API error: 404 - Not Found")
       eq_refl Hne eq_refl eq_refl eq_refl)
    as (h' & Hrun & tabs & Hpanel & Hcontent & _).
  exists h'. split; [exact Hrun|]. exists tabs. split; [exact Hpanel|exact Hcontent].
Defined.

End ViewProperties.

(** * Properties of the timeseries charts *)

Module TimeseriesProperties.
Import TimeseriesTab.

(** ** [slice] *)

Lemma slice_bound_range (len i : Z) :
  (0 <= len -> 0 <= slice_bound len i <= len)%Z.
Proof. unfold slice_bound. destruct (i <? 0)%Z eqn:E; lia. Qed.

Lemma slice_length {A : Type} (a b : Z) (l : list A) :
  length (slice a b l)
  = Z.to_nat
      (Z.max
         (slice_bound (Z.of_nat (length l)) b
          - slice_bound (Z.of_nat (length l)) a) 0).
Proof.
  unfold slice. cbv zeta. rewrite length_take, length_drop.
  pose proof (slice_bound_range (Z.of_nat (length l)) a).
  pose proof (slice_bound_range (Z.of_nat (length l)) b).
  lia.
Qed.

Lemma slice_same_length {A B : Type} (a b : Z) (l : list A) (l' : list B) :
  length l = length l' -> length (slice a b l) = length (slice a b l').
Proof. intros H. by rewrite !slice_length, H. Qed.

Lemma slice_whole {A : Type} (l : list A) :
  slice 0 (Z.of_nat (length l)) l = l.
Proof.
  unfold slice. cbv zeta.
  assert (slice_bound (Z.of_nat (length l)) 0 = 0%Z) as ->.
  { unfold slice_bound. simpl. lia. }
  assert (slice_bound (Z.of_nat (length l)) (Z.of_nat (length l))
          = Z.of_nat (length l)) as ->.
  { unfold slice_bound. destruct (_ <? 0)%Z eqn:E; lia. }
  rewrite Z.sub_0_r, Z.max_l by lia. rewrite Nat2Z.id. simpl.
  apply firstn_all.
Qed.

Lemma slice_nth {A : Type} (a b : Z) (l : list A) (k : nat) :
  (0 <= a <= b)%Z ->
  (b <= Z.of_nat (length l))%Z ->
  (Z.of_nat k < b - a)%Z ->
  nth_error (slice a b l) k = nth_error l (Z.to_nat a + k).
Proof.
  intros Hab Hb Hk. unfold slice, slice_bound. cbv zeta.
  destruct (a <? 0)%Z eqn:Ea; [lia|]. destruct (b <? 0)%Z eqn:Eb; [lia|].
  rewrite !Z.min_l by lia. rewrite Z.max_l by lia.
  rewrite nth_error_firstn, nth_error_skipn.
  destruct (Nat.ltb k (Z.to_nat (b - a))) eqn:E; [done|].
  apply Nat.ltb_ge in E. lia.
Qed.

(** ** [indexOf] *)

Lemma indexOf_from_spec (name : string) (l : list string) :
  forall i : Z,
    (0 <= i)%Z ->
    (indexOf_from i name l = (-1)%Z /\ ~ In name l) \/
    (exists j : nat,
       indexOf_from i name l = (i + Z.of_nat j)%Z /\
       nth_error l j = Some name /\
       forall j' : nat, (j' < j)%nat -> nth_error l j' <> Some name).
Proof.
  induction l as [|c l IH]; intros i Hi; simpl.
  - left. tauto.
  - destruct (String.eqb_spec c name) as [->|Hne].
    + right. exists 0%nat. split; [lia|]. split; [done|]. lia.
    + destruct (IH (i + 1)%Z) as [(H1 & H2)|(j & H1 & H2 & H3)]; [lia| |].
      * left. split; [done|]. intros [?|?]; congruence.
      * right. exists (S j). split; [lia|]. split; [done|].
        intros [|j'] Hj'; simpl; [congruence|]. apply H3. lia.
Qed.

Lemma indexOf_spec (name : string) (l : list string) :
  (indexOf name l = (-1)%Z /\ ~ In name l) \/
  (exists j : nat,
     indexOf name l = Z.of_nat j /\
     nth_error l j = Some name /\
     forall j' : nat, (j' < j)%nat -> nth_error l j' <> Some name).
Proof.
  unfold indexOf.
  destruct (indexOf_from_spec name l 0) as [(H1 & H2)|(j & H1 & H2 & H3)];
    [lia|by left|].
  right. exists j. by rewrite H1.
Qed.

Lemma getColumn_spec (data : TimeseriesData.t) (name : string) :
  (getColumn data name = None /\ ~ In name (TimeseriesData.columns data)) \/
  (exists j : nat,
     getColumn data name
     = Some (map (fun row => nth_error row j) (TimeseriesData.data data)) /\
     nth_error (TimeseriesData.columns data) j = Some name /\
     forall j' : nat,
       (j' < j)%nat -> nth_error (TimeseriesData.columns data) j' <> Some name).
Proof.
  unfold getColumn. cbv zeta.
  destruct (indexOf_spec name (TimeseriesData.columns data))
    as [[-> H]|(j & -> & H1 & H2)].
  - by left.
  - right. exists j. destruct (Z.of_nat j =? -1)%Z eqn:E.
    { apply Z.eqb_eq in E. lia. }
    split; [|done]. unfold at_index. by rewrite Nat2Z.id.
Qed.

Lemma first_position_unique (l : list string) (name : string) (j j0 : nat) :
  nth_error l j = Some name ->
  (forall j' : nat, (j' < j)%nat -> nth_error l j' <> Some name) ->
  nth_error l j0 = Some name ->
  (forall j' : nat, (j' < j0)%nat -> nth_error l j' <> Some name) ->
  j0 = j.
Proof.
  intros H1 H2 H3 H4.
  destruct (Nat.lt_trichotomy j0 j) as [Hlt|[Heq|Hgt]]; [|done|].
  - by destruct (H2 j0 Hlt).
  - by destruct (H4 j Hgt).
Qed.

Lemma trace_spec (data : TimeseriesData.t) (range : option (Z * Z))
    (name : string) (f : Js.value -> Js.float64) :
  (column_trace data range name f = None /\ ~ In name (TimeseriesData.columns data)) \/
  (exists j : nat,
     column_trace data range name f
     = Some
         (map f
            (slice (startIdx range) (endIdx data range)
               (map (fun row => nth_error row j) (TimeseriesData.data data)))) /\
     nth_error (TimeseriesData.columns data) j = Some name /\
     forall j' : nat,
       (j' < j)%nat -> nth_error (TimeseriesData.columns data) j' <> Some name).
Proof.
  unfold column_trace, sliceData.
  destruct (getColumn_spec data name) as [[-> H]|(j & -> & H1 & H2)].
  - by left.
  - right. by exists j.
Qed.

Lemma timestamps_slice (data : TimeseriesData.t) (range : option (Z * Z)) :
  filteredTimestamps data range
  = slice (startIdx range) (endIdx data range) (TimeseriesData.index data).
Proof.
  unfold filteredTimestamps, startIdx, endIdx.
  destruct range as [[a b]|]; [done|]. by rewrite slice_whole.
Qed.

(** ** The series and the zoom window *)

(** X14. For a table with one data row per timestamp and any stored
    range: each of the five series is absent exactly when its column
    name is not among the columns, in which case the chart is given an
    empty array; a series that is present has exactly as many points as
    there are timestamps on the x axis. *)
Theorem traces_are_aligned
    (data : TimeseriesData.t) (range : option (Z * Z))
    (name : string) (s : option (list Js.float64)) :
  row_per_timestamp data ->
  In (name, s) (series (traces data range)) ->
  (s = None <-> ~ In name (TimeseriesData.columns data)) /\
  (s = None -> plotted s = []) /\
  (forall points, s = Some points ->
     length points = length (timestamps (traces data range))).
Proof.
  intros Hrows Hin.
  assert (exists f, s = column_trace data range name f) as [f ->].
  { simpl in Hin.
    destruct Hin as [H|[H|[H|[H|[H|[]]]]]]; injection H as <- <-; by eexists. }
  simpl. rewrite timestamps_slice.
  destruct (trace_spec data range name f) as [[-> Hno]|(j & -> & Hj & _)].
  - split; [done|]. split; [done|]. discriminate.
  - split.
    { split; [discriminate|]. intros Hno. destruct Hno.
      by eapply nth_error_In. }
    split; [discriminate|]. intros points [= <-].
    rewrite length_map. apply slice_same_length.
    rewrite length_map. exact Hrows.
Qed.

(** The [soc] series of the sample table, plotted whole; the table has
    no [P_batt_bus_w] column. *)
Lemma traces_are_aligned_witness :
  (soc (traces sample None) = None <-> ~ In "soc" (TimeseriesData.columns sample)) /\
  (soc (traces sample None) = None -> plotted (soc (traces sample None)) = []) /\
  (forall points,
     soc (traces sample None) = Some points ->
     length points = length (timestamps (traces sample None))).
Proof.
  apply (traces_are_aligned sample None "soc" (soc (traces sample None))).
  - reflexivity.
  - do 4 right. left. reflexivity.
Defined.

(** X15. With one data row per timestamp and a range that lies inside
    the table, the [k]-th point of a series is computed from row
    [startIdx + k] of the table, read at the first column that carries
    the series' name, and the [k]-th timestamp on the x axis is the
    timestamp of that same row. *)
Theorem trace_points
    (data : TimeseriesData.t) (range : option (Z * Z))
    (name : string) (f : Js.value -> Js.float64) (j k : nat) :
  row_per_timestamp data ->
  (0 <= startIdx range <= endIdx data range)%Z ->
  (endIdx data range <= Z.of_nat (length (TimeseriesData.index data)))%Z ->
  nth_error (TimeseriesData.columns data) j = Some name ->
  (forall j' : nat,
     (j' < j)%nat -> nth_error (TimeseriesData.columns data) j' <> Some name) ->
  (Z.of_nat k < endIdx data range - startIdx range)%Z ->
  exists points ts row,
    column_trace data range name f = Some points /\
    nth_error (TimeseriesData.index data) (Z.to_nat (startIdx range) + k) = Some ts /\
    nth_error (TimeseriesData.data data) (Z.to_nat (startIdx range) + k) = Some row /\
    nth_error (filteredTimestamps data range) k = Some ts /\
    nth_error points k = Some (f (nth_error row j)).
Proof.
  intros Hrows Hab Hb Hj Hfirst Hk.
  destruct (trace_spec data range name f) as [[_ Hno]|(j0 & Htrace & Hj0 & Hfirst0)].
  { destruct Hno. by eapply nth_error_In. }
  assert (j0 = j) as -> by by eapply first_position_unique.
  assert (Z.to_nat (startIdx range) + k < length (TimeseriesData.index data))%nat
    as Hlt by lia.
  destruct (nth_error (TimeseriesData.index data) (Z.to_nat (startIdx range) + k))
    as [ts|] eqn:Hts; [|apply nth_error_None in Hts; lia].
  destruct (nth_error (TimeseriesData.data data) (Z.to_nat (startIdx range) + k))
    as [row|] eqn:Hrow;
    [|apply nth_error_None in Hrow; unfold row_per_timestamp in Hrows; lia].
  exists (map f
            (slice (startIdx range) (endIdx data range)
               (map (fun row => nth_error row j) (TimeseriesData.data data)))),
    ts, row.
  split; [done|]. split; [done|]. split; [done|]. split.
  - rewrite timestamps_slice, slice_nth; [done|done|done|done].
  - rewrite nth_error_map, slice_nth; [|done| |done].
    + by rewrite nth_error_map, Hrow.
    + rewrite length_map. unfold row_per_timestamp in Hrows. lia.
Qed.

(** The second point of the PV series of the sample table, zoomed to
    rows 1 to 3: it is row 2, in kW. *)
Lemma trace_points_witness :
  exists points ts row,
    column_trace sample (Some (1, 3)%Z) "P_pv_bus_w" (fun v => div v 1000) = Some points /\
    nth_error (TimeseriesData.index sample) 2 = Some ts /\
    nth_error (TimeseriesData.data sample) 2 = Some row /\
    nth_error (filteredTimestamps sample (Some (1, 3)%Z)) 1 = Some ts /\
    nth_error points 1 = Some (div (nth_error row 0) 1000).
Proof.
  apply (trace_points sample (Some (1, 3)%Z) "P_pv_bus_w"
           (fun v => div v 1000) 0 1).
  - reflexivity.
  - simpl. lia.
  - simpl. lia.
  - reflexivity.
  - intros j' Hj'. lia.
  - simpl. lia.
Defined.

Lemma scan_spec (isMidJanuary : string -> bool) (index : list string) :
  forall i : Z,
    (scan isMidJanuary i index = 0%Z /\
     forall s, In s index -> isMidJanuary s = false) \/
    (exists (j : nat) (s : string),
       nth_error index j = Some s /\
       isMidJanuary s = true /\
       (forall (j' : nat) (s' : string),
          (j' < j)%nat -> nth_error index j' = Some s' -> isMidJanuary s' = false) /\
       scan isMidJanuary i index = Z.max 0 (i + Z.of_nat j - windowSteps / 2)).
Proof.
  induction index as [|s index IH]; intros i; simpl.
  - left. split; [done|]. intros s [].
  - destruct (isMidJanuary s) eqn:Hs.
    + right. exists 0%nat, s. split; [done|]. split; [done|]. split; [lia|].
      f_equal. lia.
    + destruct (IH (i + 1)%Z) as [[H1 H2]|(j & s0 & H1 & H2 & H3 & H4)].
      * left. split; [done|]. intros s' [<-|Hin]; [done|by apply H2].
      * right. exists (S j), s0. split; [done|]. split; [done|]. split.
        -- intros [|j'] s' Hj' Hs'; simpl in Hs'; [congruence|].
           eapply H3; [|exact Hs']. lia.
        -- rewrite H4. f_equal. lia.
Qed.

(** X16. The range stored by [selectWinterWindow] always lies inside the
    table and spans at most 480 steps; it ends 480 steps after its start
    or at the end of the table, whichever comes first, and the charts
    then show exactly [end - start] timestamps.  When some timestamp
    passes the mid-January test, the window starts 240 steps before the
    first such timestamp (or at 0 if that is earlier) and contains it;
    when none does, the window starts at 0. *)
Theorem winter_window_is_valid
    (isMidJanuary : string -> bool) (data : TimeseriesData.t) :
  (0 <= fst (selectWinterWindow isMidJanuary data)
     <= snd (selectWinterWindow isMidJanuary data))%Z /\
  (snd (selectWinterWindow isMidJanuary data)
   <= Z.of_nat (length (TimeseriesData.index data)))%Z /\
  (snd (selectWinterWindow isMidJanuary data)
   - fst (selectWinterWindow isMidJanuary data) <= 480)%Z /\
  snd (selectWinterWindow isMidJanuary data)
  = Z.min (fst (selectWinterWindow isMidJanuary data) + 480)
      (Z.of_nat (length (TimeseriesData.index data))) /\
  length (timestamps (traces data (Some (selectWinterWindow isMidJanuary data))))
  = Z.to_nat (snd (selectWinterWindow isMidJanuary data)
              - fst (selectWinterWindow isMidJanuary data)) /\
  (forall (i : nat) (s : string),
     nth_error (TimeseriesData.index data) i = Some s ->
     isMidJanuary s = true ->
     (forall (i' : nat) (s' : string),
        (i' < i)%nat ->
        nth_error (TimeseriesData.index data) i' = Some s' ->
        isMidJanuary s' = false) ->
     fst (selectWinterWindow isMidJanuary data) = Z.max 0 (Z.of_nat i - 240) /\
     (fst (selectWinterWindow isMidJanuary data) <= Z.of_nat i
        < snd (selectWinterWindow isMidJanuary data))%Z) /\
  ((forall s, In s (TimeseriesData.index data) -> isMidJanuary s = false) ->
   fst (selectWinterWindow isMidJanuary data) = 0%Z).
Proof.
  unfold selectWinterWindow. cbv zeta. cbn [fst snd].
  change windowSteps with 480%Z.
  set (index := TimeseriesData.index data).
  set (a := scan isMidJanuary 0 index).
  assert ((a = 0%Z /\ forall s, In s index -> isMidJanuary s = false) \/
          (exists (j : nat) (s : string),
             nth_error index j = Some s /\
             isMidJanuary s = true /\
             (forall (j' : nat) (s' : string),
                (j' < j)%nat -> nth_error index j' = Some s' ->
                isMidJanuary s' = false) /\
             a = Z.max 0 (Z.of_nat j - 240))) as Ha.
  { destruct (scan_spec isMidJanuary index 0) as [H|(j & s & H1 & H2 & H3 & H4)].
    - by left.
    - right. exists j, s. split; [done|]. split; [done|]. split; [done|].
      unfold a. rewrite H4. change (windowSteps / 2)%Z with 240%Z. f_equal. }
  assert (0 <= a <= Z.of_nat (length index))%Z as Hbound.
  { destruct Ha as [[-> _]|(j & s & H1 & _ & _ & ->)]; [lia|].
    assert (j < length index)%nat by (apply nth_error_Some; congruence). lia. }
  split; [lia|]. split; [lia|]. split; [lia|]. split; [done|]. split.
  { simpl. fold index. rewrite slice_length.
    unfold slice_bound. fold a.
    destruct (a <? 0)%Z eqn:E1; [lia|].
    destruct (Z.min (a + 480) (Z.of_nat (length index)) <? 0)%Z eqn:E2; [lia|].
    lia. }
  split.
  - intros i s Hi Hs Hbefore.
    destruct Ha as [[_ Hnone]|(j & s0 & H1 & H2 & H3 & ->)].
    { rewrite (Hnone s) in Hs; [discriminate|]. by eapply nth_error_In. }
    assert (j = i) as ->.
    { destruct (Nat.lt_trichotomy j i) as [Hlt|[Heq|Hgt]]; [|done|].
      - rewrite (Hbefore j s0 Hlt H1) in H2. discriminate.
      - rewrite (H3 i s Hgt Hi) in Hs. discriminate. }
    assert (i < length index)%nat by (apply nth_error_Some; congruence).
    split; [done|]. lia.
  - intros Hnone. destruct Ha as [[-> _]|(j & s & H1 & H2 & _)]; [done|].
    rewrite (Hnone s) in H2; [discriminate|]. by eapply nth_error_In.
Qed.

End TimeseriesProperties.

(** * Properties of the summary cards and of the sweep inputs *)

Module FormProperties.
Import SummaryTab.


Lemma append_cons (x : ascii) (a s : string) :
  String x a +:+ s = String x (a +:+ s).
Proof. reflexivity. Qed.



Lemma scaled_bounds (v c lo hi : Q) :
  (0 < c)%Q ->
  ((lo * c <= v)%Q -> (lo <= v / c)%Q) /\
  ((v < hi * c)%Q -> (v / c < hi)%Q).
Proof.
  intros Hc. split; intros H.
  - apply Qle_shift_div_l; [done|]. exact H.
  - apply Qlt_shift_div_r; [done|]. exact H.
Qed.



(** ** The summary cards *)


(** X18. The eight cards read eight metrics and nothing else, each
    through [|| 0]: two records that agree on these eight, a missing
    metric counting as 0, give the same cards.  The labels, which are the
    React keys, are pairwise different.  The warnings do not go through
    [|| 0]: a record without [battery_capacity_kwh], [pv_nameplate_kw]
    and [total_hours] raises none. *)
Theorem cards_read_eight_metrics
    (toFixed : Q -> nat -> string) (metrics metrics' : gmap string Q) :
  (forall k, In k card_keys ->
     Js.or_zero (metrics !! k) = Js.or_zero (metrics' !! k)) ->
  cards toFixed metrics = cards toFixed metrics' /\
  length (cards toFixed metrics) = 8 /\
  NoDup (map label (cards toFixed metrics)) /\
  (metrics !! "battery_capacity_kwh" = None ->
   metrics !! "pv_nameplate_kw" = None ->
   metrics !! "total_hours" = None ->
   warnings metrics = []).
Proof.
  intros H. split; [|split; [done|split]].
  - unfold cards.
    rewrite (H "total_flops"), (H "utilization"), (H "hours_unserved"),
      (H "curtailment_fraction"), (H "total_pv_energy_kwh"),
      (H "total_gpu_energy_kwh"), (H "peak_pv_kw"),
      (H "battery_equivalent_cycles");
      [done|simpl; tauto..].
  - simpl. compute_done.
  - intros Hb Hp Ht. unfold warnings, high_unserved. by rewrite Hb, Hp, Ht.
Qed.

(** A record with only [total_flops], against the same record with
    [utilization] present as 0 and an [id] the cards do not read. *)
Lemma cards_read_eight_metrics_witness :
  cards integer_part {[ "total_flops" := 1e15%Q ]}
  = cards integer_part
      {[ "total_flops" := 1e15%Q; "utilization" := 0%Q; "id" := 7%Q ]}.
Proof.
  apply (cards_read_eight_metrics integer_part
           {[ "total_flops" := 1e15%Q ]}
           {[ "total_flops" := 1e15%Q; "utilization" := 0%Q; "id" := 7%Q ]}).
  intros k Hk. simpl in Hk.
  destruct Hk as [<-|[<-|[<-|[<-|[<-|[<-|[<-|[<-|[]]]]]]]]]; reflexivity.
Defined.

(** ** The comma-separated inputs *)

Lemma append_nil_r (s : string) : s +:+ "" = s.
Proof. induction s as [|c s IH]; [done|]. by rewrite append_cons, IH. Qed.

Lemma split_comma_cons (text : string) :
  exists piece pieces, ConfigForm.split_comma text = piece :: pieces.
Proof.
  induction text as [|c text IH]; simpl; [by eexists _, _|].
  destruct IH as (piece & pieces & IH).
  destruct (Ascii.eqb c ","); [by eexists _, _|]. rewrite IH.
  eexists _, _. reflexivity.
Qed.

Lemma split_comma_length (text : string) :
  length (ConfigForm.split_comma text) = S (ConfigForm.count_commas text).
Proof.
  induction text as [|c text IH]; simpl; [done|].
  destruct (Ascii.eqb c ","); simpl; [by rewrite IH|].
  destruct (split_comma_cons text) as (piece & pieces & H).
  rewrite H in IH |- *. exact IH.
Qed.

Lemma split_comma_app (p s : string) :
  ConfigForm.count_commas p = 0 ->
  ConfigForm.split_comma (p +:+ s)
  = match ConfigForm.split_comma s with
    | piece :: pieces => (p +:+ piece) :: pieces
    | [] => [p]
    end.
Proof.
  induction p as [|c p IH]; intros Hp.
  - change ("" +:+ s) with s.
    by destruct (split_comma_cons s) as (piece & pieces & ->).
  - simpl in Hp. rewrite append_cons. simpl.
    destruct (Ascii.eqb c ","); [discriminate|].
    rewrite IH by exact Hp.
    by destruct (split_comma_cons s) as (piece & pieces & ->).
Qed.

Lemma split_join (piece : string) (pieces : list string) :
  Forall (fun p => ConfigForm.count_commas p = 0) (piece :: pieces) ->
  ConfigForm.split_comma (ConfigForm.join (piece :: pieces))
  = piece :: map (fun p => " " +:+ p) pieces.
Proof.
  revert piece. induction pieces as [|q pieces IH]; intros piece Hall.
  - simpl. inversion Hall as [|? ? Hp _]; subst.
    rewrite <- (append_nil_r piece) at 1.
    rewrite split_comma_app by exact Hp. simpl.
    by rewrite append_nil_r.
  - inversion Hall as [|? ? Hp Hrest]; subst.
    change (ConfigForm.join (piece :: q :: pieces))
      with (piece +:+ ", " +:+ ConfigForm.join (q :: pieces)).
    rewrite split_comma_app by exact Hp.
    change (ConfigForm.split_comma (", " +:+ ConfigForm.join (q :: pieces)))
      with ("" :: ConfigForm.split_comma (" " +:+ ConfigForm.join (q :: pieces))).
    rewrite (split_comma_app " ") by reflexivity.
    rewrite IH by exact Hrest. simpl. by rewrite append_nil_r.
Qed.

(** X19. The list parsed from a sweep input has one entry per comma of
    the text plus one, so it is never empty: the text shown for the empty
    list, the empty string, parses to the one-entry list
    [parseFloat("")].  For a list that is not empty and whose numbers
    print without a comma, the shown text parses entry by entry: the
    first entry from its own text, every later one from its text after a
    space. *)
Theorem sweep_list_text
    (number : Type) (parseFloat : string -> number) (trim : string -> string)
    (toString : number -> string) (text : string)
    (x : number) (l : list number) :
  length (ConfigForm.parse_list number parseFloat trim text)
  = S (ConfigForm.count_commas text) /\
  ConfigForm.parse_list number parseFloat trim
    (ConfigForm.show_list number toString [])
  = [parseFloat (trim "")] /\
  (Forall (fun y => ConfigForm.count_commas (toString y) = 0) (x :: l) ->
   ConfigForm.parse_list number parseFloat trim
     (ConfigForm.show_list number toString (x :: l))
   = parseFloat (trim (toString x))
     :: map (fun y => parseFloat (trim (" " +:+ toString y))) l).
Proof.
  unfold ConfigForm.parse_list, ConfigForm.show_list.
  split; [by rewrite length_map, split_comma_length|]. split; [done|].
  intros Hall.
  change (map toString (x :: l)) with (toString x :: map toString l).
  rewrite split_join.
  - simpl. by rewrite !map_map.
  - constructor.
    + by inversion Hall.
    + apply List.Forall_forall. intros p (y & <- & Hy)%in_map_iff.
      inversion Hall as [|? ? _ Hl]; subst.
      rewrite List.Forall_forall in Hl. by apply Hl.
Qed.

End FormProperties.

(** * The pivot and the order of the rows *)

Module PivotOrderProperties.
Import SweepTab PivotProperties.

Lemma lt_equiv_r (a b c : Js.value) : Js.lt a b -> Js.equiv b c -> Js.lt a c.
Proof.
  destruct a, b, c; simpl; try tauto. intros H1 H2. by rewrite <- H2.
Qed.

Lemma lt_equiv_l (a b c : Js.value) : Js.equiv a b -> Js.lt b c -> Js.lt a c.
Proof.
  destruct a, b, c; simpl; try tauto. intros H1 H2. by rewrite H1.
Qed.

Lemma lt_irrefl (a : Js.value) : ~ Js.lt a a.
Proof. destruct a; simpl; [apply Qlt_irrefl|tauto]. Qed.

(** Two strictly sorted lists with the same values, up to [===], agree
    position by position. *)
Lemma sorted_same_values (l1 : list Js.value) :
  forall l2 : list Js.value,
    StronglySorted Js.lt l1 ->
    StronglySorted Js.lt l2 ->
    (forall a, In a l1 -> exists b, In b l2 /\ Js.equiv a b) ->
    (forall b, In b l2 -> exists a, In a l1 /\ Js.equiv a b) ->
    Forall2 Js.equiv l1 l2.
Proof.
  induction l1 as [|a l1 IH]; intros l2 H1 H2 H12 H21.
  - destruct l2 as [|b l2]; [constructor|].
    destruct (H21 b) as (a & [] & _). by left.
  - destruct l2 as [|b l2].
    { destruct (H12 a) as (b & [] & _). by left. }
    apply StronglySorted_inv in H1 as [H1 Ha].
    apply StronglySorted_inv in H2 as [H2 Hb].
    rewrite List.Forall_forall in Ha, Hb.
    assert (Js.equiv a b) as Hab.
    { destruct (H12 a) as (b' & [<-|Hb'] & Hab'); [by left|done|].
      destruct (H21 b) as (a' & [<-|Ha'] & Ha'b); [by left|done|].
      exfalso. apply (lt_irrefl a).
      eapply lt_trans; [apply Ha, Ha'|].
      eapply lt_equiv_r; [|apply equiv_sym, Hab'].
      eapply lt_equiv_l; [exact Ha'b|]. by apply Hb. }
    constructor; [done|]. apply IH; [done|done| |].
    + intros a' Ha'. destruct (H12 a') as (b' & [<-|Hb'] & Hab'); [by right| |by eauto].
      exfalso. apply (lt_irrefl a). eapply lt_equiv_r; [apply Ha, Ha'|].
      eapply equiv_trans; [exact Hab'|by apply equiv_sym].
    + intros b' Hb'. destruct (H21 b') as (a' & [<-|Ha'] & Hab'); [by right| |by eauto].
      exfalso. apply (lt_irrefl b). eapply lt_equiv_r; [apply Hb, Hb'|].
      eapply equiv_trans; [apply equiv_sym, Hab'|done].
Qed.

Lemma filter_length_perm {A : Type} (p : A -> bool) (l l' : list A) :
  Permutation l l' ->
  length (List.filter p l) = length (List.filter p l').
Proof.
  induction 1 as [|a l l' _ IH|a b l|l l' l'' _ IH1 _ IH2]; simpl.
  - done.
  - destruct (p a); simpl; by rewrite IH.
  - by destruct (p a), (p b).
  - by rewrite IH1.
Qed.

Lemma find_perm_unique {A : Type} (p : A -> bool) (l l' : list A) :
  Permutation l l' ->
  length (List.filter p l) <= 1 ->
  List.find p l = List.find p l'.
Proof.
  intros Hperm Hone.
  destruct (List.find p l) as [a|] eqn:Hfind.
  - apply find_some in Hfind as [Hin Hp].
    assert (In a (List.filter p l)) as Hf by (apply filter_In; done).
    symmetry. apply find_unique; [|by eapply Permutation_in|done].
    rewrite <- (filter_length_perm p l l' Hperm).
    destruct (List.filter p l) as [|? [|? ?]]; simpl in *; [done|done|lia].
  - symmetry. destruct (List.find p l') as [b|] eqn:Hfind'; [|done].
    apply find_some in Hfind' as [Hin Hp].
    apply Permutation_sym in Hperm.
    pose proof (find_none _ _ Hfind b (Permutation_in _ Hperm Hin)). congruence.
Qed.

Lemma map_equiv {A : Type} (h h' : Js.value -> A) (l l' : list Js.value) :
  (forall a b, Js.equiv a b -> h a = h' b) ->
  Forall2 Js.equiv l l' ->
  map h l = map h' l'.
Proof.
  intros Hh. induction 1 as [|a b l l' Hab _ IH]; simpl; [done|].
  by rewrite (Hh a b Hab), IH.
Qed.

Lemma same_point_matches (x y : Js.value) (r r' : gmap string Q) :
  matches x y r -> matches x y r' -> SweepRows.same_point r r' = true.
Proof.
  intros [H1 H2] [H1' H2']. unfold SweepRows.same_point.
  apply andb_true_iff. split; apply strict_eq_spec.
  - eapply equiv_trans; [exact H1|by apply equiv_sym].
  - eapply equiv_trans; [exact H2|by apply equiv_sym].
Qed.

Lemma distinct_points_one (rows : list (gmap string Q)) (x y : Js.value) :
  SweepRows.distinct_points rows = true ->
  length
    (List.filter
       (fun r : gmap string Q =>
          Js.strict_eq (r !! "pv_kw") x && Js.strict_eq (r !! "batt_kwh") y)
       rows) <= 1.
Proof.
  induction rows as [|r rows IH]; simpl; [lia|].
  intros [Hr Hrows]%andb_true_iff.
  destruct (Js.strict_eq (r !! "pv_kw") x && Js.strict_eq (r !! "batt_kwh") y)
    eqn:E; [|by apply IH].
  apply matches_spec in E. simpl.
  assert (List.filter
            (fun r : gmap string Q =>
               Js.strict_eq (r !! "pv_kw") x && Js.strict_eq (r !! "batt_kwh") y)
            rows = []) as ->; [|done].
  destruct (List.filter _ rows) as [|r' ?] eqn:Hf; [done|].
  assert (In r' (r' :: l)) as Hin by by left.
  rewrite <- Hf in Hin. apply filter_In in Hin as [Hin Hr'].
  apply matches_spec in Hr'.
  rewrite forallb_forall in Hr. specialize (Hr r' Hin).
  by rewrite (same_point_matches x y r r' E Hr') in Hr.
Qed.

Lemma find_row_perm (d d' : SweepData.t) (x y x' y' : Js.value) :
  Permutation (SweepData.data d) (SweepData.data d') ->
  SweepRows.distinct_points (SweepData.data d) = true ->
  Js.equiv x x' ->
  Js.equiv y y' ->
  find_row d x y = find_row d' x' y'.
Proof.
  intros Hperm Hd Hx Hy. unfold find_row.
  rewrite (find_ext
             (fun r : gmap string Q =>
                Js.strict_eq (r !! "pv_kw") x' && Js.strict_eq (r !! "batt_kwh") y')
             (fun r : gmap string Q =>
                Js.strict_eq (r !! "pv_kw") x && Js.strict_eq (r !! "batt_kwh") y)).
  - apply find_perm_unique; [done|]. by apply distinct_points_one.
  - intros r. by rewrite (equiv_strict_eq_r _ x x'), (equiv_strict_eq_r _ y y').
Qed.

Lemma axis_perm (key : string) (rows rows' : list (gmap string Q)) :
  Permutation rows rows' ->
  Forall2 Js.equiv
    (Js.sort (Js.spread_set (map (fun r : gmap string Q => r !! key) rows)))
    (Js.sort (Js.spread_set (map (fun r : gmap string Q => r !! key) rows'))).
Proof.
  intros Hperm.
  destruct (axis_spec (map (fun r : gmap string Q => r !! key) rows))
    as (Hs & Hin & Hall).
  destruct (axis_spec (map (fun r : gmap string Q => r !! key) rows'))
    as (Hs' & Hin' & Hall').
  apply sorted_same_values; [done|done| |].
  - intros a Ha. apply Hin, in_map_iff in Ha as (r & <- & Hr).
    destruct (Hall' (r !! key)) as (b & Hb & Hbr).
    { apply in_map_iff. exists r. split; [done|]. by eapply Permutation_in. }
    exists b. split; [done|]. by apply equiv_sym.
  - intros b Hb. apply Hin', in_map_iff in Hb as (r & <- & Hr).
    apply Hall, in_map_iff. exists r. split; [done|].
    eapply Permutation_in; [|exact Hr]. by apply Permutation_sym.
Qed.

Lemma find_row_distinct (d : SweepData.t) (x y : Js.value) (r : gmap string Q) :
  SweepRows.distinct_points (SweepData.data d) = true ->
  In r (SweepData.data d) ->
  matches x y r ->
  find_row d x y = Some r.
Proof.
  intros Hd Hin Hm. unfold find_row. apply matches_spec in Hm.
  apply find_unique; [|done|done].
  pose proof (distinct_points_one _ x y Hd) as Hle.
  assert (In r
            (List.filter
               (fun r : gmap string Q =>
                  Js.strict_eq (r !! "pv_kw") x && Js.strict_eq (r !! "batt_kwh") y)
               (SweepData.data d))) as Hf by (apply filter_In; done).
  destruct (List.filter _ (SweepData.data d)) as [|? ?]; [done|]. simpl in *. lia.
Qed.

Lemma axis_position (key : string) (rows : list (gmap string Q))
    (r : gmap string Q) :
  In r rows ->
  exists (k : nat) (v : Js.value),
    nth_error
      (Js.sort (Js.spread_set (map (fun r : gmap string Q => r !! key) rows))) k
    = Some v /\
    Js.equiv v (r !! key).
Proof.
  intros Hin.
  destruct (axis_spec (map (fun r : gmap string Q => r !! key) rows))
    as (_ & _ & Hall).
  destruct (Hall (r !! key)) as (v & Hv & Hvr).
  { apply in_map_iff. by exists r. }
  apply In_nth_error in Hv as [k Hk]. by exists k, v.
Qed.

(** ** Row order and the results table *)

(** X2. The pivot does not depend on the order of the rows.  When no
    two rows sit at the same point, any reordering of the rows gives the
    same two axes (the same numbers in the same positions) and exactly
    the same two matrices. *)
Theorem pivot_ignores_row_order (d d' : SweepData.t) :
  Permutation (SweepData.data d) (SweepData.data d') ->
  SweepRows.distinct_points (SweepData.data d) = true ->
  Forall2 Js.equiv (pvSizes d) (pvSizes d') /\
  Forall2 Js.equiv (battSizes d) (battSizes d') /\
  utilizationMatrix d = utilizationMatrix d' /\
  flopsMatrix d = flopsMatrix d'.
Proof.
  intros Hperm Hd.
  assert (Forall2 Js.equiv (pvSizes d) (pvSizes d')) as Hpv
    by by apply axis_perm.
  assert (Forall2 Js.equiv (battSizes d) (battSizes d')) as Hbatt
    by by apply axis_perm.
  split; [done|]. split; [done|].
  unfold utilizationMatrix, flopsMatrix. rewrite !outer_loop_eq. simpl.
  split.
  - apply map_equiv; [|done]. intros y y' Hy.
    apply map_equiv; [|done]. intros x x' Hx.
    by rewrite (find_row_perm d d' x y x' y').
  - apply map_equiv; [|done]. intros y y' Hy.
    apply map_equiv; [|done]. intros x x' Hx.
    by rewrite (find_row_perm d d' x y x' y').
Qed.

(** The dense sweep of the examples against the same rows in grid
    order. *)
Lemma pivot_ignores_row_order_witness :
  flopsMatrix dense_sweep = flopsMatrix SweepRows.dense_sweep_in_order.
Proof.
  apply (pivot_ignores_row_order dense_sweep SweepRows.dense_sweep_in_order).
  - apply (Permutation_cons_app [row_1_2; row_2_2; row_1_4] [] row_2_4).
    simpl. apply perm_skip. apply perm_swap.
  - reflexivity.
Defined.

(** X20. A sweep without two rows at the same point is shown whole:
    every row of the results table has its place in both heatmaps, at
    the position of its battery size on the y axis and of its PV size on
    the x axis, and the two cells there hold the very numbers the table
    row prints, the utilization in percent and the FLOPs in PFLOPs. *)
Theorem heatmaps_show_every_row (d : SweepData.t) (r : gmap string Q) :
  SweepRows.distinct_points (SweepData.data d) = true ->
  In r (SweepData.data d) ->
  In (SweepRows.table_row r) (SweepRows.table d) /\
  exists (i j : nat) (pv batt : Js.value),
    nth_error (y (utilizationHeatmap d)) i = Some batt /\
    nth_error (y (flopsHeatmap d)) i = Some batt /\
    Js.equiv batt (SweepRows.batt (SweepRows.table_row r)) /\
    nth_error (x (utilizationHeatmap d)) j = Some pv /\
    nth_error (x (flopsHeatmap d)) j = Some pv /\
    Js.equiv pv (SweepRows.pv (SweepRows.table_row r)) /\
    cell (z (utilizationHeatmap d)) i j
    = Some (SweepRows.utilization (SweepRows.table_row r)) /\
    cell (z (flopsHeatmap d)) i j
    = Some (SweepRows.total_flops (SweepRows.table_row r)).
Proof.
  intros Hd Hin. split; [by apply in_map|].
  destruct (axis_position "batt_kwh" _ r Hin) as (i & batt & Hi & Hbatt).
  destruct (axis_position "pv_kw" _ r Hin) as (j & pv & Hj & Hpv).
  exists i, j, pv, batt. simpl.
  assert (find_row d pv batt = Some r) as Hfind.
  { apply find_row_distinct; [done|done|]. split; by apply equiv_sym. }
  destruct (matrix_cells d i j pv batt Hi Hj) as [Hu Hf].
  rewrite Hfind in Hu, Hf. simpl in Hu, Hf.
  split; [done|]. split; [done|]. split; [done|].
  split; [done|]. split; [done|]. split; [done|].
  split; [done|]. by apply (cell_scale (fun v => Js.div v 1e15)).
Qed.

(** The row at PV 2 kW and battery 4 kWh of the dense sweep. *)
Lemma heatmaps_show_every_row_witness :
  exists (i j : nat),
    cell (z (flopsHeatmap dense_sweep)) i j = Some (Js.div 40 1e15) /\
    cell (z (utilizationHeatmap dense_sweep)) i j = Some (Js.mul 0.75 100).
Proof.
  destruct (heatmaps_show_every_row dense_sweep row_2_4)
    as (_ & i & j & pv & batt & _ & _ & _ & _ & _ & _ & Hu & Hf).
  - reflexivity.
  - by left.
  - exists i, j. split; [exact Hf|exact Hu].
Defined.

End PivotOrderProperties.
